(** * Verification of [inflammation/models.py]

    A shallow embedding of the model layer of the inflammation study,
    followed by the properties stated for it.

    - The classes [Observation], [Person], [Patient] and [Doctor]: objects
      live in a store and are known by their location, so that identity
      ([in] on a list of patients) and mutation in place are what they are
      in Python.
    - The statistics on the inflammation table: a two-dimensional array of
      [float64] items, which are the primitive binary64 numbers here; the
      NumPy calls are written out as the loops NumPy runs.  Warnings
      ([np.errstate], "All-NaN slice encountered") have no effect on the
      values and are left out.
    - A call returns a value or raises: [pyresult]. *)

From Stdlib Require Import ZArith Lia Bool List.
From Stdlib Require Import Floats.Floats Numbers.Cyclic.Int63.Uint63.
From stdpp Require Import gmap strings list.

Local Open Scope string_scope.

(** ** Python exceptions and results *)

(** The exceptions raised by the module or by the library calls it makes.
    The messages of [ValueError] and [TypeError] raised by the [raise]
    statements of the source are the source's literals.  [Dangling] stands
    for the use of a location that holds no object of the expected class,
    which no Python program can produce. *)
Inductive exn :=
| ValueError (msg : string)
| TypeError (msg : string)
| IndexError (msg : string)
| Dangling.

Inductive pyresult (A : Type) :=
| Ok (a : A)
| Raise (e : exn).
Arguments Ok {A} a.
Arguments Raise {A} e.

(** Statements run in a state and either produce a value or raise; the
    state is kept as it was when the exception was raised. *)
Definition PyM (S A : Type) : Type := S -> pyresult A * S.

Definition ret {S A} (a : A) : PyM S A := fun s => (Ok a, s).

Definition raise {S A} (e : exn) : PyM S A := fun s => (Raise e, s).

Definition bind {S A B} (m : PyM S A) (k : A -> PyM S B) : PyM S B :=
  fun s => match m s with
           | (Ok a, s') => k a s'
           | (Raise e, s') => (Raise e, s')
           end.

Definition lift {S A} (r : pyresult A) : PyM S A := fun s => (r, s).

Notation "'let*' x := m 'in' k" := (bind m (fun x => k))
  (at level 10, x name, m at level 100, k at level 200).
Notation "m ;;; k" := (bind m (fun _ => k))
  (at level 100, k at level 200, right associativity).

(** ** The record model

    Python objects have an identity: a [Patient] or [Doctor] lives at a
    location of the object store, and the methods update the store in
    place.  Both are a [Person]: they have a name, which [__str__]
    returns.  [print] appends a line to [stdout]. *)
Abbreviation loc := positive (only parsing).

Section Records.
Context {V : Type}.

Record Observation := { day : Z; value : V }.

Record Patient := { patient_name : string; observations : list Observation }.

Record Doctor := { doctor_name : string; patients : list loc }.

Inductive object :=
| OPatient (p : Patient)
| ODoctor (d : Doctor).

Record world := World { heap : gmap positive object; stdout : list string }.

Definition W (A : Type) : Type := PyM world A.

Definition new_object (o : object) : W loc :=
  fun w => let l := fresh (dom (heap w)) in
           (Ok l, World (<[l := o]> (heap w)) (stdout w)).

Definition get_patient (l : loc) : W Patient :=
  fun w => match heap w !! l with
           | Some (OPatient p) => (Ok p, w)
           | _ => (Raise Dangling, w)
           end.

Definition get_doctor (l : loc) : W Doctor :=
  fun w => match heap w !! l with
           | Some (ODoctor d) => (Ok d, w)
           | _ => (Raise Dangling, w)
           end.

Definition set_object (l : loc) (o : object) : W unit :=
  fun w => (Ok tt, World (<[l := o]> (heap w)) (stdout w)).

Definition print (line : string) : W unit :=
  fun w => (Ok tt, World (heap w) (stdout w ++ [line])).

(** [Person.__str__]: the name. *)
Definition Person_str (self : loc) : W string :=
  fun w => match heap w !! self with
           | Some (OPatient p) => (Ok (patient_name p), w)
           | Some (ODoctor d) => (Ok (doctor_name d), w)
           | None => (Raise Dangling, w)
           end.

(** [Patient(name)] and [Doctor(name)]. *)
Definition Patient_init (name : string) : W loc :=
  new_object (OPatient {| patient_name := name; observations := [] |}).

Definition Doctor_init (name : string) : W loc :=
  new_object (ODoctor {| doctor_name := name; patients := [] |}).

(** [l[-1]] on a Python list. *)
Definition list_last_item {A} (l : list A) : pyresult A :=
  match last l with
  | Some a => Ok a
  | None => Raise (IndexError "list index out of range")
  end.

(** [Patient.add_observation(self, value, day=None)]. *)
Definition add_observation (self : loc) (value : V) (day_arg : option Z)
  : W Observation :=
  let* p := get_patient self in
  let day' :=
    match day_arg with
    | None =>
        match list_last_item (observations p) with
        | Ok o => Ok (day o + 1)%Z
        | Raise (IndexError _) => Ok 0%Z
        | Raise e => Raise e
        end
    | Some d => Ok d
    end in
  let* d := lift day' in
  let new_observation := {| day := d; value := value |} in
  set_object self
    (OPatient {| patient_name := patient_name p;
                 observations := observations p ++ [new_observation] |});;;
  ret new_observation.

(** The argument of [Doctor.add_patient]: an existing [Patient] or a bare
    name. *)
Inductive patient_arg :=
| APatient (ref : loc)
| AName (name : string).

(** [str(patient)] in the message of [add_patient]. *)
Definition arg_str (a : patient_arg) : W string :=
  match a with
  | APatient l => Person_str l
  | AName s => ret s
  end.

(** ['Patient with name %s already in Doctor %s\'s list.' % (patient, doctor)] *)
Definition conflict_line (patient doctor : string) : string :=
  "Patient with name " ++ patient ++ " already in Doctor " ++ doctor
  ++ "'s list.".

(** [Doctor.add_patient(self, patient)]; the result is [None] when the
    function falls off its end. *)
Definition add_patient (self : loc) (patient : patient_arg) : W (option loc) :=
  let* new_patient :=
    match patient with
    | APatient l => ret l
    | AName s => Patient_init s
    end in
  let* d := get_doctor self in
  if bool_decide (new_patient ∉ patients d) then
    set_object self
      (ODoctor {| doctor_name := doctor_name d;
                  patients := patients d ++ [new_patient] |});;;
    ret (Some new_patient)
  else
    let* s := arg_str patient in
    print (conflict_line s (doctor_name d));;;
    ret None.

(** The calls a client of the record model can make. *)
Inductive call :=
| CallPatient (name : string)
| CallDoctor (name : string)
| CallAddObservation (self : loc) (value : V) (day : option Z)
| CallAddPatient (self : loc) (patient : patient_arg).

Definition exec (c : call) (w : world) : world :=
  match c with
  | CallPatient name => snd (Patient_init name w)
  | CallDoctor name => snd (Doctor_init name w)
  | CallAddObservation self v d => snd (add_observation self v d w)
  | CallAddPatient self p => snd (add_patient self p w)
  end.

Definition empty_world : world := World ∅ [].

(** The worlds a program can be in: those built from nothing by calls. *)
Inductive reachable : world -> Prop :=
| reach_empty : reachable empty_world
| reach_step w c : reachable w -> reachable (exec c w).

(** No doctor of the world holds a patient twice. *)
Definition doctors_distinct (w : world) : Prop :=
  forall d doc, heap w !! d = Some (ODoctor doc) -> NoDup (patients doc).

End Records.

(** ** Arrays and the NumPy calls of the module

    The arrays are those [np.loadtxt] produces: two-dimensional, of dtype
    [float64], that is IEEE 754 binary64, the primitive [float] here. *)

Section Arrays.
Local Open Scope float_scope.

(** A two-dimensional array: its rows and the length of axis 1, which an
    array without rows still has. *)
Record ndarray := NdArray { ncols : nat; rows : list (list float) }.

Definition nrows (a : ndarray) : nat := length (rows a).

Definition shape (a : ndarray) : nat * nat := (nrows a, ncols a).

Definition rectangular (a : ndarray) : Prop :=
  Forall (fun r => length r = ncols a) (rows a).

(** [x < 0] on an item. *)
Definition negative (x : float) : bool := x <? 0.

Definition no_negative (a : ndarray) : Prop :=
  Forall (Forall (fun x => negative x = false)) (rows a).

(** The inner loops of the ufuncs [maximum], [minimum] and [fmax]:
    [(a >= b || isnan(a)) ? a : b] and so on. *)
Definition maximum (a b : float) : float :=
  if (b <=? a) || is_nan a then a else b.

Definition minimum (a b : float) : float :=
  if (a <=? b) || is_nan a then a else b.

Definition fmax (a b : float) : float :=
  if (b <=? a) || is_nan b then a else b.

Definition zero_size (ufunc : string) : exn :=
  ValueError ("zero-size array to reduction operation " ++ ufunc
              ++ " which has no identity").

(** A reduction that starts from the first item; the callers exclude the
    empty case by the shape. *)
Definition reduce_items (f : float -> float -> float) (r : list float) : float :=
  match r with
  | [] => 0
  | x :: xs => fold_left f xs x
  end.

Definition reduce_axis0 (f : float -> float -> float) (a : ndarray)
  : list float :=
  match rows a with
  | [] => []
  | r :: rs => fold_left (zip_with f) rs r
  end.

(** [np.nanmax(a, axis=1)]: [np.fmax.reduce] along axis 1. *)
Definition np_nanmax_axis1 (a : ndarray) : pyresult (list float) :=
  if Nat.eqb (ncols a) 0 then Raise (zero_size "fmax")
  else Ok (map (reduce_items fmax) (rows a)).

(** [np.max(a, axis=0)] and [np.min(a, axis=0)]. *)
Definition np_max_axis0 (a : ndarray) : pyresult (list float) :=
  if Nat.eqb (nrows a) 0 then Raise (zero_size "maximum")
  else Ok (reduce_axis0 maximum a).

Definition np_min_axis0 (a : ndarray) : pyresult (list float) :=
  if Nat.eqb (nrows a) 0 then Raise (zero_size "minimum")
  else Ok (reduce_axis0 minimum a).

(** [np.add.reduce(a, axis=0)]; the identity of [add] is 0. *)
Definition np_sum_axis0 (a : ndarray) : list float :=
  match rows a with
  | [] => replicate (ncols a) 0
  | r :: rs => fold_left (zip_with PrimFloat.add) rs r
  end.

(** A number of items as a [float64]. *)
Definition of_count (n : nat) : float :=
  PrimFloat.of_uint63 (Uint63.of_Z (Z.of_nat n)).

(** [np.mean(a, axis=0)]: the sum divided by the number of items. *)
Definition np_mean_axis0 (a : ndarray) : list float :=
  map (fun s => s / of_count (nrows a)) (np_sum_axis0 a).

(** The sum of the squared deviations from the mean, the numerator of
    NumPy's [_var]: [arrmean = sum / rcount], [x = a - arrmean],
    [x = x * x], [sum(x)]. *)
Definition sum_squared_deviations (a : ndarray) : list float :=
  let arrmean := map (fun s => s / of_count (nrows a)) (np_sum_axis0 a) in
  let x := map (fun r => zip_with PrimFloat.sub r arrmean) (rows a) in
  let x := map (map (fun v => v * v)) x in
  np_sum_axis0 (NdArray (ncols a) x).

(** [np.var(a, axis=0, ddof=ddof)]: the numerator divided by
    [max(rcount - ddof, 0)]. *)
Definition np_var_axis0 (ddof : nat) (a : ndarray) : list float :=
  map (fun s => s / of_count (nrows a - ddof)) (sum_squared_deviations a).

Definition np_std_axis0 (ddof : nat) (a : ndarray) : list float :=
  map PrimFloat.sqrt (np_var_axis0 ddof a).

(** [a[i]] for an integer [i]: negative indices count from the end. *)
Definition np_getitem (a : ndarray) (i : Z) : pyresult (list float) :=
  let n := Z.of_nat (nrows a) in
  let k := if (i <? 0)%Z then (i + n)%Z else i in
  match (if (0 <=? k)%Z then rows a !! Z.to_nat k else None) with
  | Some r => Ok r
  | None => Raise (IndexError "index is out of bounds for axis 0")
  end.

(** [functools.reduce(f, l)] without an initial value. *)
Definition functools_reduce {A} (f : A -> A -> A) (l : list A) : pyresult A :=
  match l with
  | [] => Raise (TypeError "reduce() of empty iterable with no initial value")
  | x :: xs => Ok (fold_left f xs x)
  end.

(** *** The statistics of the module *)

Definition daily_mean (data : ndarray) : list float := np_mean_axis0 data.

Definition daily_max (data : ndarray) : pyresult (list float) :=
  np_max_axis0 data.

Definition daily_min (data : ndarray) : pyresult (list float) :=
  np_min_axis0 data.

Definition daily_std (data : ndarray) : list float := np_std_axis0 0 data.

(** [x > threshold] is [threshold < x]. *)
Definition daily_above_threshold (data : ndarray) (patient_nr : Z)
    (threshold : float) : pyresult Z :=
  match np_getitem data patient_nr with
  | Raise e => Raise e
  | Ok row =>
      let bools := map (fun x => threshold <? x) row in
      let int_bools := map Z.b2z bools in
      functools_reduce Z.add int_bools
  end.

(** *** Normalisation

    [patient_normalise] receives a reference: arrays live in a store, the
    result is a new cell of it, and the two masked assignments update that
    cell in place. *)

(** What a caller can pass as [data]. *)
#[warnings="-register-all"]
Inductive pyval :=
| PyNone
| PyStr (s : string)
| PyNum (x : float)
| PyList (items : list pyval)
| PyArray (ref : loc).

Definition isinstance_ndarray (v : pyval) : bool :=
  match v with PyArray _ => true | _ => false end.

Definition new_array (a : ndarray) : PyM (gmap positive ndarray) loc :=
  fun st => let l := fresh (dom st) in (Ok l, <[l := a]> st).

Definition get_array (l : loc) : PyM (gmap positive ndarray) ndarray :=
  fun st => match st !! l with
            | Some a => (Ok a, st)
            | None => (Raise Dangling, st)
            end.

Definition set_array (l : loc) (a : ndarray) : PyM (gmap positive ndarray) unit :=
  fun st => (Ok tt, <[l := a]> st).

(** The value of [data < 0]: a Python bool or a boolean array. *)
Inductive lt_result :=
| BoolValue (b : bool)
| BoolArray (mask : list (list bool)).

Definition not_supported (ty : string) : exn :=
  TypeError ("'<' not supported between instances of '" ++ ty ++ "' and 'int'").

Definition lt_zero (data : pyval) : PyM (gmap positive ndarray) lt_result :=
  match data with
  | PyArray l =>
      let* a := get_array l in
      ret (BoolArray (map (map negative) (rows a)))
  | PyNum x => ret (BoolValue (negative x))
  | PyNone => raise (not_supported "NoneType")
  | PyStr _ => raise (not_supported "str")
  | PyList _ => raise (not_supported "list")
  end.

Definition np_any (r : lt_result) : bool :=
  match r with
  | BoolValue b => b
  | BoolArray mask => existsb (existsb id) mask
  end.

(** [a / max_val[:, np.newaxis]]: row [i] of [a] divided by item [i]. *)
Definition divide_rows (a : ndarray) (max_val : list float) : ndarray :=
  NdArray (ncols a)
          (zip_with (fun r m => map (fun x => x / m) r) (rows a) max_val).

(** [arr[mask(arr)] = v]: the new contents, and the assignment in place. *)
Definition where_set (mask : float -> bool) (v : float) (a : ndarray) : ndarray :=
  NdArray (ncols a) (map (map (fun x => if mask x then v else x)) (rows a)).

Definition setitem_where (l : loc) (mask : float -> bool) (v : float)
  : PyM (gmap positive ndarray) unit :=
  let* a := get_array l in
  set_array l (where_set mask v a).

Definition patient_normalise (data : pyval) : PyM (gmap positive ndarray) loc :=
  let* neg := lt_zero data in
  if np_any neg then
    raise (ValueError "Inflammation values should not be negative")
  else
    match data with
    | PyArray l =>
        let* a := get_array l in
        let* max_val := lift (np_nanmax_axis1 a) in
        let* normalised := new_array (divide_rows a max_val) in
        setitem_where normalised is_nan 0;;;
        setitem_where normalised negative 0;;;
        ret normalised
    | _ => raise (TypeError "Inflammation data should be an Numpy nd-array")
    end.

(** The contents of the array [patient_normalise] returns, row by row:
    each item divided by the row's [fmax] reduction, then the two repairs. *)
Definition normalise_item (m x : float) : float :=
  let y := x / m in
  let y := if is_nan y then 0 else y in
  if negative y then 0 else y.

Definition normalise_row (row : list float) : list float :=
  map (normalise_item (reduce_items fmax row)) row.

End Arrays.

Arguments negative : simpl never.
Arguments fmax : simpl never.
Arguments normalise_item : simpl never.

(** ** The vocabulary of the properties *)

(** An item of the closed range from 0 to 1. *)
Definition in_unit (x : float) : Prop :=
  (0 <=? x)%float = true /\ (x <=? 1)%float = true.

(** [m] is the maximum of the defined (not NaN) items of [row]. *)
Definition row_maximum (row : list float) (m : float) : Prop :=
  m ∈ row /\ is_nan m = false /\
  forall x, x ∈ row -> is_nan x = false -> (x <=? m)%float = true.

Definition positive_finite (m : float) : Prop :=
  (0 <? m)%float = true /\ (m <? infinity)%float = true.

(** The number of items of a row above the threshold. *)
Definition count_above (threshold : float) (row : list float) : Z :=
  Z.of_nat (length (filter (fun x => (threshold <? x)%float = true) row)).

(** *** The order of binary64

    The numbers other than NaN are ordered like the integers [fkey] gives
    them: the sign, then the exponent, then the mantissa. *)
Definition finite_key (m : positive) (e : Z) : Z :=
  (e + 1075) * 9007199254740992 + Zpos m.

Definition SFkey (x : spec_float) : option Z :=
  match x with
  | S754_nan => None
  | S754_zero _ => Some 0%Z
  | S754_infinity s =>
      Some (if s then - 18446744073709551616 else 18446744073709551616)%Z
  | S754_finite s m e =>
      Some (if s then - finite_key m e else finite_key m e)%Z
  end.

Definition fkey (x : float) : option Z := SFkey (Prim2SF x).

(** [m] counted in units of [2 ^ e] is at most one, and below one when
    bits have been lost. *)
Definition below_one (m e : Z) (inexact : bool) : Prop :=
  (0 <= m /\ e <= 0 /\ m <= 2 ^ (- e) /\ (inexact = true -> m < 2 ^ (- e)))%Z.

(** What a quotient not above one rounds to: a zero, or a positive number
    not above [2 ^ 52 * 2 ^ -52]. *)
Definition unit_result (r : spec_float) : Prop :=
  (exists s, r = S754_zero s) \/
  exists m e, r = S754_finite false m e /\
              (e < -52 \/ (e = -52 /\ Zpos m <= 4503599627370496))%Z.

(** *** Programs, days and columns *)

(** A sequence of calls, run in order. *)
Definition exec_all {V : Type} (cs : list (@call V)) (w : world) : world :=
  fold_left (fun w c => exec c w) cs w.

(** An object after some calls: the same class and name, and the list it
    holds continued. *)
Definition object_extends {V : Type} (o o' : @object V) : Prop :=
  match o, o' with
  | OPatient p, OPatient p' =>
      patient_name p' = patient_name p /\
      observations p `prefix_of` observations p'
  | ODoctor d, ODoctor d' =>
      doctor_name d' = doctor_name d /\
      patients d `prefix_of` patients d'
  | _, _ => False
  end.

(** The days 0, 1, ..., [n - 1]. *)
Definition default_days (n : nat) : list Z := map Z.of_nat (seq 0 n).

(** The items of column [j], from the first row to the last. *)
Definition column (j : nat) (a : ndarray) : list float :=
  omap (fun r => r !! j) (rows a).

(** ** Sample arrays *)

Definition matrix_1234 : ndarray :=
  NdArray 2 [[1; 2]; [3; 4]]%float.

Definition matrix_159_222 : ndarray :=
  NdArray 3 [[1; 5; 9]; [2; 2; 2]]%float.

Definition matrix_negative : ndarray :=
  NdArray 2 [[1; -1]; [2; 3]]%float.

(** One patient with an infinite reading. *)
Definition matrix_infinite : ndarray :=
  NdArray 3 [[1; infinity; 0]]%float.

(** Three days, no patient: [np.zeros((0, 3))]. *)
Definition matrix_no_patients : ndarray := NdArray 3 [].

(** One patient, no days: [np.zeros((1, 0))]. *)
Definition matrix_no_days : ndarray := NdArray 0 [[]].

(** Two patients, no days. *)
Definition matrix_two_no_days : ndarray := NdArray 0 [[]; []].

Definition matrix_mixed : ndarray :=
  NdArray 3 [[1; 2; 4]; [nan; 3; 0]; [0; -0; 0]; [nan; nan; nan]]%float.

(** * Properties *)

(** ** The record model *)

Section RecordProperties.
Context {V : Type}.
Implicit Types (w : @world V) (p : @Patient V) (doc : Doctor).

Lemma list_last_item_snoc {A} (l : list A) (a : A) :
  list_last_item (l ++ [a]) = Ok a.
Proof. unfold list_last_item. now rewrite last_snoc. Qed.

(** What a call of [add_observation] without a day does to the store. *)
Lemma add_observation_run w self p (v : V) :
  heap w !! self = Some (OPatient p) ->
  let d := match last (observations p) with
           | None => 0%Z
           | Some o => (day o + 1)%Z
           end in
  let o := {| day := d; value := v |} in
  add_observation self v None w =
    (Ok o,
     World (<[self := OPatient {| patient_name := patient_name p;
                                  observations := observations p ++ [o] |}]>
              (heap w))
           (stdout w)).
Proof.
  intros Hself. unfold add_observation, bind, get_patient, list_last_item.
  rewrite Hself. destruct (last (observations p)); reflexivity.
Qed.

(** C8: [add_observation] without an explicit day gives day 0 to the first
    observation of a patient and otherwise the day after the last
    observation's; the observation made is appended to the patient's
    observations and returned. *)
Theorem add_observation_default_day w self p (v : V) :
  heap w !! self = Some (OPatient p) ->
  exists o w',
    add_observation self v None w = (Ok o, w') /\
    value o = v /\
    (observations p = [] -> day o = 0%Z) /\
    (forall o_last, last (observations p) = Some o_last ->
                    day o = (day o_last + 1)%Z) /\
    heap w' = <[self := OPatient {| patient_name := patient_name p;
                                    observations := observations p ++ [o] |}]>
                (heap w) /\
    stdout w' = stdout w.
Proof.
  intros Hself. eexists _, _. split.
  - apply add_observation_run, Hself.
  - cbn. repeat split.
    + intros ->. reflexivity.
    + intros o_last ->. reflexivity.
Qed.

(** A fresh patient: the first two observations get the days 0 and 1. *)
Lemma fresh_patient_days w name (v1 v2 : V) :
  exists self w0 o1 w1 o2 w2,
    Patient_init name w = (Ok self, w0) /\
    add_observation self v1 None w0 = (Ok o1, w1) /\
    add_observation self v2 None w1 = (Ok o2, w2) /\
    day o1 = 0%Z /\ day o2 = 1%Z.
Proof.
  eexists _, _, _, _, _, _. split; [reflexivity|].
  split.
  { apply add_observation_run. cbn. apply lookup_insert_eq. }
  split.
  { apply add_observation_run. cbn. apply lookup_insert_eq. }
  cbn. split; reflexivity.
Qed.

(** The two outcomes of [add_patient] on a patient object. *)
Lemma add_patient_new w self doc ref :
  heap w !! self = Some (ODoctor doc) ->
  ref ∉ patients doc ->
  add_patient self (APatient ref) w =
    (Ok (Some ref),
     World (<[self := ODoctor {| doctor_name := doctor_name doc;
                                 patients := patients doc ++ [ref] |}]> (heap w))
           (stdout w)).
Proof.
  intros Hself Hnew. unfold add_patient, bind, ret, get_doctor.
  rewrite Hself. rewrite bool_decide_eq_true_2 by assumption. reflexivity.
Qed.

Lemma add_patient_held w self doc ref p :
  heap w !! self = Some (ODoctor doc) ->
  heap w !! ref = Some (OPatient p) ->
  ref ∈ patients doc ->
  add_patient self (APatient ref) w =
    (Ok None,
     World (heap w)
           (stdout w ++ [conflict_line (patient_name p) (doctor_name doc)])).
Proof.
  intros Hself Href Hin. unfold add_patient, bind, ret, get_doctor.
  rewrite Hself. rewrite bool_decide_eq_false_2 by (intros Hn; exact (Hn Hin)).
  unfold arg_str, Person_str. rewrite Href. reflexivity.
Qed.

(** Every call keeps the patients of each doctor distinct. *)
Lemma exec_doctors_distinct w c :
  doctors_distinct w -> doctors_distinct (exec c w).
Proof.
  intros Hw d doc. destruct c as [name|name|self v dy|self [ref|name]]; cbn.
  - intros [[_ [=]]|[_ Hd]]%lookup_insert_Some. eauto.
  - intros [[_ [= <-]]|[_ Hd]]%lookup_insert_Some; [constructor|eauto].
  - unfold add_observation, bind, get_patient.
    destruct (heap w !! self) as [[p|dd]|] eqn:Hs; cbn; eauto.
    destruct dy; cbn.
    + intros [[_ [=]]|[_ Hd]]%lookup_insert_Some. eauto.
    + unfold list_last_item. destruct (last (observations p)); cbn.
      all: intros [[_ [=]]|[_ Hd]]%lookup_insert_Some; eauto.
  - unfold add_patient, bind, ret, get_doctor.
    destruct (heap w !! self) as [[p|dd]|] eqn:Hs; cbn; eauto.
    case_bool_decide as Hin; cbn.
    + intros [[_ [= <-]]|[_ Hd]]%lookup_insert_Some; [|eauto]. cbn.
      apply NoDup_app. split; [eauto|]. split; [|apply NoDup_singleton].
      intros x Hx ->%list_elem_of_singleton. contradiction.
    + unfold Person_str. destruct (heap w !! ref) as [[?|?]|]; cbn; eauto.
  - unfold add_patient, bind, ret, get_doctor, Patient_init, new_object. cbn.
    set (l := fresh (dom (heap w))).
    set (o := OPatient {| patient_name := name; observations := [] |}).
    assert (Hkeep : forall doc', <[l:=o]> (heap w) !! d = Some (ODoctor doc') ->
                                 NoDup (patients doc')).
    { intros doc' [[_ [=]]|[_ Hd]]%lookup_insert_Some. eauto. }
    destruct (<[l:=o]> (heap w) !! self) as [[p|dd]|] eqn:Hs; cbn; auto.
    case_bool_decide as Hin; cbn; auto.
    intros [[_ [= <-]]|[_ Hd]]%lookup_insert_Some; [|auto]. cbn.
    apply NoDup_app. split.
    + destruct (decide (self = l)) as [->|Hne].
      * unfold o in Hs. rewrite lookup_insert_eq in Hs. discriminate.
      * rewrite lookup_insert_ne in Hs by congruence. eauto.
    + split; [|apply NoDup_singleton].
      intros x Hx ->%list_elem_of_singleton. contradiction.
Qed.

Lemma reachable_doctors_distinct w : reachable w -> doctors_distinct w.
Proof.
  induction 1 as [|w c _ IH].
  - intros d doc. cbn. rewrite lookup_empty. discriminate.
  - apply exec_doctors_distinct, IH.
Qed.

Lemma count_occ_NoDup_one (l : list positive) (x : positive) :
  NoDup l -> x ∈ l -> count_occ Pos.eq_dec l x = 1.
Proof.
  intros Hnd Hin. apply NoDup_ListNoDup in Hnd. apply list_elem_of_In in Hin.
  pose proof (proj1 (NoDup_count_occ Pos.eq_dec l) Hnd x) as Hle.
  pose proof (proj1 (count_occ_In Pos.eq_dec l x) Hin). lia.
Qed.

(** C9: in every world a program can reach, no doctor holds a patient twice;
    after two calls of [add_patient] with the same patient the doctor holds
    it exactly once, and the second call changes no object, returns [None]
    without raising and prints the conflict. *)
Theorem add_patient_twice w :
  reachable w ->
  forall d doc, heap w !! d = Some (ODoctor doc) ->
    NoDup (patients doc) /\
    forall ref p, heap w !! ref = Some (OPatient p) ->
      exists r1 w1 doc1,
        add_patient d (APatient ref) w = (Ok r1, w1) /\
        heap w1 !! d = Some (ODoctor doc1) /\
        NoDup (patients doc1) /\
        count_occ Pos.eq_dec (patients doc1) ref = 1 /\
        add_patient d (APatient ref) w1 =
          (Ok None,
           World (heap w1)
                 (stdout w1 ++ [conflict_line (patient_name p) (doctor_name doc)])).
Proof.
  intros Hreach d doc Hd.
  pose proof (reachable_doctors_distinct w Hreach d doc Hd) as Hnd.
  split; [exact Hnd|]. intros ref p Href.
  assert (Hne : d <> ref) by (intros ->; congruence).
  destruct (decide (ref ∈ patients doc)) as [Hin|Hnew].
  - eexists _, _, doc. split; [eapply add_patient_held; eassumption|].
    split; [exact Hd|]. split; [exact Hnd|].
    split; [now apply count_occ_NoDup_one|].
    erewrite add_patient_held; [reflexivity|eassumption..].
  - set (doc1 := {| doctor_name := doctor_name doc;
                    patients := patients doc ++ [ref] |}).
    assert (Hnd1 : NoDup (patients doc1)).
    { cbn. apply NoDup_app. split; [assumption|]. split; [|apply NoDup_singleton].
      intros x Hx ->%list_elem_of_singleton. contradiction. }
    assert (Hin1 : ref ∈ patients doc1) by (cbn; set_solver).
    eexists _, _, doc1. split; [eapply add_patient_new; eassumption|].
    split; [apply lookup_insert_eq|]. split; [exact Hnd1|].
    split; [now apply count_occ_NoDup_one|].
    erewrite (add_patient_held _ d doc1 ref p); [reflexivity| | |exact Hin1].
    + apply lookup_insert_eq.
    + cbn. rewrite lookup_insert_ne by assumption. assumption.
Qed.

End RecordProperties.

Lemma add_observation_default_day_witness :
  exists o w',
    add_observation 1%positive 7%Z None
      (World {[ 1%positive :=
                  OPatient {| patient_name := "Alice";
                              observations := [ {| day := 4; value := 3%Z |} ] |} ]}
             []) = (Ok o, w') /\
    value o = 7%Z /\ day o = 5%Z.
Proof.
  destruct (add_observation_default_day
              (World {[ 1%positive :=
                  OPatient {| patient_name := "Alice";
                              observations := [ {| day := 4; value := 3%Z |} ] |} ]}
                     [])
              1%positive _ 7%Z (lookup_singleton_eq _ _))
    as (o & w' & Hrun & Hv & _ & Hd & _).
  exists o, w'. split; [exact Hrun|]. split; [exact Hv|].
  apply (Hd {| day := 4; value := 3%Z |}). reflexivity.
Defined.

Lemma add_patient_twice_witness :
  let w := exec (CallPatient "Bob") (exec (CallDoctor "Who") (@empty_world Z)) in
  exists r1 w1 doc1,
    add_patient 1%positive (APatient 2%positive) w = (Ok r1, w1) /\
    heap w1 !! 1%positive = Some (ODoctor doc1) /\
    NoDup (patients doc1) /\
    count_occ Pos.eq_dec (patients doc1) 2%positive = 1 /\
    add_patient 1%positive (APatient 2%positive) w1 =
      (Ok None, World (heap w1) (stdout w1 ++ [conflict_line "Bob" "Who"])).
Proof.
  intros w.
  assert (Hreach : reachable w) by (do 2 apply reach_step; apply reach_empty).
  assert (Hd : heap w !! 1%positive
               = Some (ODoctor {| doctor_name := "Who"; patients := [] |}))
    by (vm_compute; reflexivity).
  assert (Hp : heap w !! 2%positive
               = Some (OPatient {| patient_name := "Bob"; observations := [] |}))
    by (vm_compute; reflexivity).
  exact (proj2 (add_patient_twice w Hreach _ _ Hd) _ _ Hp).
Defined.

(** ** Runs of [patient_normalise] and [daily_above_threshold] *)

Section ArrayProperties.
Implicit Types (a : ndarray) (st : gmap positive ndarray).

Lemma existsb_id_map {A} (f : A -> bool) (l : list A) :
  existsb id (map f l) = existsb f l.
Proof. induction l as [|x l IH]; cbn; [reflexivity|]. now rewrite IH. Qed.

Lemma np_any_mask a :
  np_any (BoolArray (map (map negative) (rows a)))
  = existsb (existsb negative) (rows a).
Proof.
  cbn. induction (rows a) as [|r rs IH]; cbn; [reflexivity|].
  now rewrite existsb_id_map, IH.
Qed.

Lemma np_any_no_negative a :
  no_negative a -> np_any (BoolArray (map (map negative) (rows a))) = false.
Proof.
  rewrite np_any_mask. unfold no_negative.
  induction 1 as [|r rs Hr _ IH]; cbn; [reflexivity|].
  rewrite IH, orb_false_r. clear IH.
  induction Hr as [|x xs Hx _ IHr]; cbn; [reflexivity|].
  now rewrite Hx, IHr.
Qed.

Lemma np_any_some_negative a row x :
  row ∈ rows a -> x ∈ row -> negative x = true ->
  np_any (BoolArray (map (map negative) (rows a))) = true.
Proof.
  intros Hrow Hx Hneg. rewrite np_any_mask.
  apply existsb_exists. exists row. split; [now apply list_elem_of_In|].
  apply existsb_exists. exists x. split; [now apply list_elem_of_In|assumption].
Qed.

Lemma zip_with_map_same {A B C} (f : A -> B -> C) (g : A -> B) (l : list A) :
  zip_with f l (map g l) = map (fun x => f x (g x)) l.
Proof. induction l as [|x l IH]; cbn; [reflexivity|]. now rewrite IH. Qed.

(** The array built by the division and the two masked assignments. *)
Lemma repaired_rows a :
  where_set negative 0%float
    (where_set is_nan 0%float
       (divide_rows a (map (reduce_items fmax) (rows a))))
  = NdArray (ncols a) (map normalise_row (rows a)).
Proof.
  unfold where_set, divide_rows. cbn. f_equal.
  rewrite zip_with_map_same, !map_map.
  apply map_ext. intros row. unfold normalise_row.
  rewrite !map_map. reflexivity.
Qed.

(** A run of [patient_normalise] that passes the checks: one new cell. *)
Lemma patient_normalise_run st l a :
  st !! l = Some a ->
  no_negative a ->
  ncols a <> 0 ->
  patient_normalise (PyArray l) st =
    (Ok (fresh (dom st)),
     <[fresh (dom st) := NdArray (ncols a) (map normalise_row (rows a))]> st).
Proof.
  intros Hl Hneg Hcols.
  unfold patient_normalise, bind, lift, ret, lt_zero, get_array, bind, ret.
  rewrite Hl. rewrite np_any_no_negative by assumption.
  rewrite Hl. unfold np_nanmax_axis1.
  destruct (Nat.eqb_spec (ncols a) 0) as [?|_]; [contradiction|].
  unfold new_array, setitem_where, bind, get_array, set_array.
  rewrite !lookup_insert_eq, !insert_insert_eq, repaired_rows. reflexivity.
Qed.

(** A run on an array without columns: [np.nanmax] raises. *)
Lemma patient_normalise_no_columns st l a :
  st !! l = Some a ->
  no_negative a ->
  ncols a = 0 ->
  patient_normalise (PyArray l) st = (Raise (zero_size "fmax"), st).
Proof.
  intros Hl Hneg Hcols.
  unfold patient_normalise, bind, lift, ret, lt_zero, get_array, bind, ret.
  rewrite Hl. rewrite np_any_no_negative by assumption.
  rewrite Hl. unfold np_nanmax_axis1. rewrite Hcols. reflexivity.
Qed.

(** A run on an array with a negative item: the first check raises. *)
Lemma patient_normalise_raise st l a row x :
  st !! l = Some a ->
  row ∈ rows a -> x ∈ row -> negative x = true ->
  patient_normalise (PyArray l) st =
    (Raise (ValueError "Inflammation values should not be negative"), st).
Proof.
  intros Hl Hrow Hx Hneg.
  unfold patient_normalise, bind, lift, ret, lt_zero, get_array, bind, ret.
  rewrite Hl. now rewrite (np_any_some_negative a row x).
Qed.

(** C2 (amended): an array with a negative item makes [patient_normalise]
    raise [ValueError] with the message of the source, "Inflammation values
    should not be negative"; the check is the first statement, so the store
    is as it was: nothing has been computed or allocated. *)
Theorem patient_normalise_rejects_negative st l a :
  st !! l = Some a ->
  (exists row x, row ∈ rows a /\ x ∈ row /\ negative x = true) ->
  patient_normalise (PyArray l) st =
    (Raise (ValueError "Inflammation values should not be negative"), st).
Proof.
  intros Hl (row & x & Hrow & Hx & Hneg).
  now apply (patient_normalise_raise st l a row x).
Qed.

(** C3 (amended): an input that is not an array makes [patient_normalise]
    raise [TypeError], the store unchanged, unless it is a number below
    zero, which the negativity check, made first, rejects. *)
Theorem patient_normalise_type_error st (data : pyval) :
  isinstance_ndarray data = false ->
  (forall x, data = PyNum x -> negative x = false) ->
  exists msg, patient_normalise data st = (Raise (TypeError msg), st).
Proof.
  intros Hty Hnum. destruct data as [|s|x|items|l]; cbn in Hty; try discriminate.
  - eexists. reflexivity.
  - eexists. reflexivity.
  - eexists. unfold patient_normalise, bind, lt_zero, ret. cbn.
    rewrite (Hnum x eq_refl). reflexivity.
  - eexists. reflexivity.
Qed.

(** A number below zero is rejected by the negativity check. *)
Lemma patient_normalise_negative_number st (x : float) :
  negative x = true ->
  patient_normalise (PyNum x) st =
    (Raise (ValueError "Inflammation values should not be negative"), st).
Proof.
  intros Hx. unfold patient_normalise, bind, lt_zero, ret. cbn.
  rewrite Hx. reflexivity.
Qed.

(** Whatever the outcome, the cells of the store keep their contents, and a
    result is a cell the store did not have. *)
Lemma patient_normalise_frame st (data : pyval) res st' :
  patient_normalise data st = (res, st') ->
  (forall k b, st !! k = Some b -> st' !! k = Some b) /\
  (forall r, res = Ok r -> st !! r = None /\ is_Some (st' !! r)).
Proof.
  assert (Hkeep : forall e, (Raise e, st) = (res, st') ->
    (forall k b, st !! k = Some b -> st' !! k = Some b) /\
    (forall r, res = Ok r -> st !! r = None /\ is_Some (st' !! r))).
  { intros e [= <- <-]. split; [auto|discriminate]. }
  destruct data as [|s|x|items|l].
  1, 2, 4: apply Hkeep.
  - unfold patient_normalise, bind, lt_zero, ret. cbn.
    destruct (negative x); apply Hkeep.
  - unfold patient_normalise, bind, lift, ret, lt_zero, get_array, bind, ret.
    destruct (st !! l) as [a|] eqn:Hl; [|apply Hkeep].
    destruct (np_any _); [apply Hkeep|]. rewrite Hl.
    unfold np_nanmax_axis1. destruct (ncols a =? 0)%nat; [apply Hkeep|].
    unfold new_array, setitem_where, bind, get_array, set_array.
    rewrite !lookup_insert_eq, !insert_insert_eq.
    intros [= <- <-].
    assert (Hfresh : st !! fresh (dom st) = None).
    { apply not_elem_of_dom, is_fresh. }
    split.
    + intros k b Hk. rewrite lookup_insert_ne; [assumption|].
      intros <-. congruence.
    + intros r [= <-]. split; [assumption|]. rewrite lookup_insert_eq. eauto.
Qed.

(** C4: [patient_normalise] leaves its argument as it was, whatever the
    outcome; the array it returns is a new cell of the store, different from
    the argument; and on an array without negative items (and with a
    column) it does return. *)
Theorem patient_normalise_no_mutation st l a :
  st !! l = Some a ->
  (forall res st', patient_normalise (PyArray l) st = (res, st') ->
     st' !! l = Some a /\
     (forall k b, st !! k = Some b -> st' !! k = Some b) /\
     forall r, res = Ok r -> r <> l /\ st !! r = None /\ is_Some (st' !! r)) /\
  (no_negative a -> ncols a <> 0 ->
   exists r st', patient_normalise (PyArray l) st = (Ok r, st')).
Proof.
  intros Hl. split.
  - intros res st' Hrun.
    destruct (patient_normalise_frame _ _ _ _ Hrun) as [Hkeep Hnew].
    split; [auto|]. split; [exact Hkeep|].
    intros r Hr. destruct (Hnew r Hr) as [Hnone Hsome].
    split; [|auto]. intros ->. congruence.
  - intros Hneg Hcols. eexists _, _.
    exact (patient_normalise_run st l a Hl Hneg Hcols).
Qed.

Lemma np_getitem_elem a i row : np_getitem a i = Ok row -> row ∈ rows a.
Proof.
  unfold np_getitem.
  destruct (0 <=? _)%Z; [|discriminate].
  destruct (rows a !! _) as [r|] eqn:Hr; [|discriminate].
  intros [= <-]. eapply list_elem_of_lookup_2, Hr.
Qed.


Lemma sum_int_bools (f : float -> bool) (xs : list float) (acc : Z) :
  fold_left Z.add (map Z.b2z (map f xs)) acc
  = (acc + Z.of_nat (length (filter (fun x => f x = true) xs)))%Z.
Proof.
  revert acc. induction xs as [|x xs IH]; intros acc.
  - cbn. lia.
  - cbn [map fold_left]. rewrite IH, filter_cons.
    case_decide as Hfx; rewrite ?Hfx.
    + cbn [length Z.b2z]. lia.
    + apply not_true_is_false in Hfx. rewrite Hfx. cbn [Z.b2z]. lia.
Qed.

(** [daily_above_threshold] on a row that has items. *)
Lemma daily_above_threshold_row a i (threshold : float) row :
  np_getitem a i = Ok row ->
  row <> [] ->
  daily_above_threshold a i threshold = Ok (count_above threshold row).
Proof.
  intros Hrow Hne. unfold daily_above_threshold. rewrite Hrow.
  destruct row as [|x xs]; [contradiction|]. cbn [map functools_reduce].
  rewrite sum_int_bools. unfold count_above. rewrite filter_cons.
  case_decide as Hx; rewrite ?Hx.
  - cbn [length Z.b2z]. f_equal. lia.
  - apply not_true_is_false in Hx. rewrite Hx. cbn [Z.b2z]. f_equal.
Qed.

(** C10: on an array without columns every valid row is empty, and
    [daily_above_threshold] raises the [TypeError] of [reduce] on an empty
    sequence instead of returning 0. *)
Theorem daily_above_threshold_no_columns a i (threshold : float) :
  rectangular a ->
  ncols a = 0 ->
  (exists row, np_getitem a i = Ok row) ->
  daily_above_threshold a i threshold =
    Raise (TypeError "reduce() of empty iterable with no initial value") /\
  daily_above_threshold a i threshold <> Ok 0%Z.
Proof.
  intros Hrect Hcols [row Hrow].
  assert (Hlen : length row = 0).
  { rewrite <- Hcols. unfold rectangular in Hrect.
    rewrite Forall_forall in Hrect. apply Hrect.
    eapply np_getitem_elem, Hrow. }
  destruct row; [|discriminate].
  unfold daily_above_threshold. rewrite Hrow. cbn. split; [reflexivity|discriminate].
Qed.

End ArrayProperties.

(** ** IEEE 754 binary64

    The facts on the primitive operations that the normalisation needs,
    from their specification ([SpecFloat]). *)

Section Binary64.
Local Open Scope Z_scope.

Lemma digits2_pos_bounds (p : positive) :
  2 ^ (Zpos (digits2_pos p) - 1) <= Zpos p < 2 ^ Zpos (digits2_pos p).
Proof.
  induction p as [p IH|p IH|]; cbn [digits2_pos].
  - rewrite Pos2Z.inj_succ, Z.pow_succ_r by lia.
    replace (Z.succ (Zpos (digits2_pos p)) - 1) with (Z.succ (Zpos (digits2_pos p) - 1)) by lia.
    rewrite Z.pow_succ_r by lia. lia.
  - rewrite Pos2Z.inj_succ, Z.pow_succ_r by lia.
    replace (Z.succ (Zpos (digits2_pos p)) - 1) with (Z.succ (Zpos (digits2_pos p) - 1)) by lia.
    rewrite Z.pow_succ_r by lia. lia.
  - cbn. lia.
Qed.

Lemma digits_le_pow2 (p : positive) (k : Z) :
  0 <= k -> Zpos p <= 2 ^ k -> Zpos (digits2_pos p) <= k + 1.
Proof.
  intros Hk Hp. destruct (digits2_pos_bounds p) as [Hlo _].
  destruct (Z_le_gt_dec (Zpos (digits2_pos p)) (k + 1)) as [|Hgt]; [assumption|].
  assert (2 ^ (k + 1) <= 2 ^ (Zpos (digits2_pos p) - 1))
    by (apply Z.pow_le_mono_r; lia).
  rewrite Z.pow_add_r, Z.pow_1_r in H by lia.
  assert (0 < 2 ^ k) by (apply Z.pow_pos_nonneg; lia). lia.
Qed.

Lemma digits_lt_pow2 (p : positive) (k : Z) :
  0 <= k -> Zpos p < 2 ^ k -> Zpos (digits2_pos p) <= k.
Proof.
  intros Hk Hp. destruct (digits2_pos_bounds p) as [Hlo _].
  destruct (Z_le_gt_dec (Zpos (digits2_pos p)) k) as [|Hgt]; [assumption|].
  assert (2 ^ k <= 2 ^ (Zpos (digits2_pos p) - 1))
    by (apply Z.pow_le_mono_r; lia).
  lia.
Qed.

(** A valid finite binary64 number. *)
Lemma valid_finite s m e :
  valid_binary (S754_finite s m e) = true ->
  Zpos (digits2_pos m) <= 53 /\ -1074 <= e <= 971 /\
  (-1074 < e -> Zpos (digits2_pos m) = 53).
Proof.
  unfold SpecFloat.valid_binary, bounded, canonical_mantissa, fexp, emin.
  change prec with 53. change emax with 1024.
  rewrite andb_true_iff, Z.eqb_eq, Z.leb_le. lia.
Qed.


Lemma finite_key_bounds s m e :
  valid_binary (S754_finite s m e) = true ->
  0 < finite_key m e < 18446744073709551616.
Proof.
  intros Hv. apply valid_finite in Hv as (Hd & He & _).
  assert (Zpos m < 2 ^ 53).
  { destruct (digits2_pos_bounds m) as [_ Hhi].
    eapply Z.lt_le_trans; [exact Hhi|]. apply Z.pow_le_mono_r; lia. }
  change (2 ^ 53) with 9007199254740992 in H.
  unfold finite_key. lia.
Qed.

Lemma finite_key_compare m1 e1 m2 e2 :
  valid_binary (S754_finite false m1 e1) = true ->
  valid_binary (S754_finite false m2 e2) = true ->
  match e1 ?= e2 with
  | Lt => Lt
  | Gt => Gt
  | Eq => Pos.compare_cont Eq m1 m2
  end = (finite_key m1 e1 ?= finite_key m2 e2).
Proof.
  intros Hv1 Hv2.
  apply valid_finite in Hv1 as (Hd1 & He1 & _).
  apply valid_finite in Hv2 as (Hd2 & He2 & _).
  assert (Zpos m1 < 9007199254740992).
  { destruct (digits2_pos_bounds m1) as [_ Hhi].
    eapply Z.lt_le_trans; [exact Hhi|].
    change 9007199254740992 with (2 ^ 53). apply Z.pow_le_mono_r; lia. }
  assert (Zpos m2 < 9007199254740992).
  { destruct (digits2_pos_bounds m2) as [_ Hhi].
    eapply Z.lt_le_trans; [exact Hhi|].
    change 9007199254740992 with (2 ^ 53). apply Z.pow_le_mono_r; lia. }
  unfold finite_key. destruct (Z.compare_spec e1 e2) as [->|Hlt|Hgt].
  - rewrite Z.add_compare_mono_l. reflexivity.
  - symmetry. apply Z.compare_lt_iff. lia.
  - symmetry. apply Z.compare_gt_iff. lia.
Qed.

Lemma SFcompare_key x y :
  valid_binary x = true -> valid_binary y = true ->
  SFcompare x y =
    match SFkey x, SFkey y with
    | Some a, Some b => Some (a ?= b)
    | _, _ => None
    end.
Proof.
  intros Hx Hy.
  destruct x as [sx|sx| |sx mx ex], y as [sy|sy| |sy my ey];
    cbn [SFcompare SFkey]; try reflexivity.
  all: try pose proof (finite_key_bounds _ _ _ Hx) as Hkx.
  all: try pose proof (finite_key_bounds _ _ _ Hy) as Hky.
  all: try (destruct sx, sy; f_equal; symmetry;
            first [apply Z.compare_eq_iff; lia
                  |apply Z.compare_lt_iff; lia
                  |apply Z.compare_gt_iff; lia]).
  all: try (destruct sx; f_equal; symmetry;
            first [apply Z.compare_eq_iff; lia
                  |apply Z.compare_lt_iff; lia
                  |apply Z.compare_gt_iff; lia]).
  all: try (destruct sy; f_equal; symmetry;
            first [apply Z.compare_eq_iff; lia
                  |apply Z.compare_lt_iff; lia
                  |apply Z.compare_gt_iff; lia]).
  f_equal. destruct sx, sy.
  - assert (Hx' : valid_binary (S754_finite false mx ex) = true) by exact Hx.
    assert (Hy' : valid_binary (S754_finite false my ey) = true) by exact Hy.
    rewrite Z.compare_opp.
    rewrite <- (finite_key_compare my ey mx ex Hy' Hx').
    rewrite (Z.compare_antisym ey ex), Pos.compare_cont_antisym. cbn [CompOpp].
    destruct (ey ?= ex); reflexivity.
  - symmetry. apply Z.compare_lt_iff. lia.
  - symmetry. apply Z.compare_gt_iff. lia.
  - now apply finite_key_compare.
Qed.


(** *** Rounding a quotient that does not exceed one *)

Lemma pow2_step (e : Z) : e + 1 <= 0 -> 2 ^ (- e) = 2 * 2 ^ (- (e + 1)).
Proof.
  intros He. replace (- e) with (Z.succ (- (e + 1))) by lia.
  apply Z.pow_succ_r. lia.
Qed.

Lemma shr_1_below_one mrs e :
  below_one (shr_m mrs) e (shr_r mrs || shr_s mrs) ->
  e + 1 <= 0 ->
  below_one (shr_m (shr_1 mrs)) (e + 1)
            (shr_r (shr_1 mrs) || shr_s (shr_1 mrs)).
Proof.
  destruct mrs as [m r s]. cbn [shr_m shr_r shr_s].
  intros (Hm & He & Hle & Hlt) He1.
  rewrite (pow2_step e He1) in Hle, Hlt.
  assert (0 < 2 ^ (- (e + 1))) by (apply Z.pow_pos_nonneg; lia).
  unfold below_one.
  destruct m as [|[p|p|]|p]; cbn [shr_1 shr_m shr_r shr_s orb]; try lia.
  all: repeat split; try lia.
  all: intros Hi; try specialize (Hlt Hi); lia.
Qed.

Lemma iter_shr_1_below_one (n : positive) :
  forall mrs e,
    below_one (shr_m mrs) e (shr_r mrs || shr_s mrs) ->
    e + Zpos n <= 0 ->
    below_one (shr_m (SpecFloat.iter_pos shr_1 n mrs)) (e + Zpos n)
              (shr_r (SpecFloat.iter_pos shr_1 n mrs) || shr_s (SpecFloat.iter_pos shr_1 n mrs)).
Proof.
  induction n as [n IH|n IH|]; intros mrs e Hb He; cbn [SpecFloat.iter_pos].
  - replace (e + Zpos n~1) with (e + 1 + Zpos n + Zpos n) by lia.
    apply IH; [|lia]. apply IH; [|lia]. apply shr_1_below_one; [assumption|lia].
  - replace (e + Zpos n~0) with (e + Zpos n + Zpos n) by lia.
    apply IH; [|lia]. apply IH; [assumption|lia].
  - now apply shr_1_below_one.
Qed.

Lemma inexact_of_loc m l :
  shr_r (shr_record_of_loc m l) || shr_s (shr_record_of_loc m l) = true
  <-> l <> loc_Exact.
Proof. destruct l as [|[| |]]; cbn; split; congruence. Qed.

Lemma loc_of_inexact mrs :
  loc_of_shr_record mrs <> loc_Exact -> shr_r mrs || shr_s mrs = true.
Proof. destruct mrs as [m [|] [|]]; cbn; congruence. Qed.

Lemma shr_fexp_below_one m e l :
  0 <= m -> e <= -52 -> m <= 2 ^ (- e) -> (l <> loc_Exact -> m < 2 ^ (- e)) ->
  forall mrs' e', shr_fexp prec emax m e l = (mrs', e') ->
    e' <= -52 /\
    below_one (shr_m mrs') e' (shr_r mrs' || shr_s mrs').
Proof.
  intros Hm He Hle Hlt mrs' e'. unfold shr_fexp, shr.
  assert (Hb : below_one (shr_m (shr_record_of_loc m l)) e
                 (shr_r (shr_record_of_loc m l) || shr_s (shr_record_of_loc m l))).
  { unfold below_one. replace (shr_m (shr_record_of_loc m l)) with m
      by (destruct l as [|[| |]]; reflexivity).
    repeat split; try lia. intros Hi. apply Hlt. now apply inexact_of_loc in Hi. }
  assert (Hfexp : fexp prec emax (Zdigits2 m + e) <= -52).
  { unfold fexp, emin. change prec with 53. change emax with 1024.
    destruct m as [|p|p]; cbn [Zdigits2]; [lia| |lia].
    pose proof (digits_le_pow2 p (- e) ltac:(lia) Hle). lia. }
  destruct (fexp prec emax (Zdigits2 m + e) - e) as [|n|n] eqn:Hn.
  - intros [= <- <-]. split; [lia|assumption].
  - intros [= <- <-]. split; [lia|].
    apply iter_shr_1_below_one; [assumption|lia].
  - intros [= <- <-]. split; [lia|assumption].
Qed.

Lemma binary_round_aux_unit mz ez lz :
  0 <= mz -> ez <= -52 -> mz <= 2 ^ (- ez) ->
  (lz <> loc_Exact -> mz < 2 ^ (- ez)) ->
  unit_result (binary_round_aux prec emax false mz ez lz).
Proof.
  intros Hm He Hle Hlt. unfold binary_round_aux.
  destruct (shr_fexp prec emax mz ez lz) as [mrs1 e1] eqn:H1.
  destruct (shr_fexp_below_one mz ez lz Hm He Hle Hlt _ _ H1)
    as (He1 & Hm1 & _ & Hle1 & Hlt1).
  set (m1 := round_nearest_even (shr_m mrs1) (loc_of_shr_record mrs1)).
  assert (Hr : 0 <= m1 <= 2 ^ (- e1)).
  { unfold m1, round_nearest_even.
    destruct (loc_of_shr_record mrs1) as [|[| |]] eqn:Hloc; try lia.
    - assert (shr_m mrs1 < 2 ^ (- e1))
        by (apply Hlt1, loc_of_inexact; congruence).
      destruct (Z.even (shr_m mrs1)); lia.
    - assert (shr_m mrs1 < 2 ^ (- e1))
        by (apply Hlt1, loc_of_inexact; congruence).
      lia. }
  destruct (shr_fexp prec emax m1 e1 loc_Exact) as [mrs2 e2] eqn:H2.
  destruct (shr_fexp_below_one m1 e1 loc_Exact ltac:(lia) He1 ltac:(lia)
              ltac:(congruence) _ _ H2) as (He2 & Hm2 & _ & Hle2 & _).
  destruct (shr_m mrs2) as [|m|m] eqn:Hs; [left; eauto| |lia].
  right. change (emax - prec) with 971.
  destruct (Z.leb_spec e2 971) as [_|]; [|lia].
  exists m, e2. split; [reflexivity|].
  destruct (Z.eq_dec e2 (-52)) as [->|]; [right|left; lia].
  split; [reflexivity|]. exact Hle2.
Qed.


(** Two positive numbers in order: exponents and mantissas. *)
Lemma SFleb_finite mx ex my ey :
  valid_binary (S754_finite false mx ex) = true ->
  valid_binary (S754_finite false my ey) = true ->
  SFleb (S754_finite false mx ex) (S754_finite false my ey) = true ->
  ex <= ey /\ Zpos mx <= Zpos my * 2 ^ (ey - ex).
Proof.
  intros Hx Hy. unfold SFleb. cbn [SFcompare].
  apply valid_finite in Hx as (Hdx & Hex & _).
  apply valid_finite in Hy as (Hdy & Hey & Hny).
  destruct (Z.compare_spec ex ey) as [->|Hlt|Hgt].
  - intros Hc. split; [lia|]. rewrite Z.sub_diag, Z.pow_0_r, Z.mul_1_r.
    change (Pos.compare_cont Eq mx my) with (mx ?= my)%positive in Hc.
    destruct (Pos.compare_spec mx my); [lia|lia|discriminate].
  - intros _. split; [lia|].
    destruct (digits2_pos_bounds mx) as [_ Hhx].
    destruct (digits2_pos_bounds my) as [Hly _].
    rewrite (Hny ltac:(lia)) in Hly. change (2 ^ (53 - 1)) with 4503599627370496 in Hly.
    assert (Zpos mx < 9007199254740992).
    { eapply Z.lt_le_trans; [exact Hhx|].
      change 9007199254740992 with (2 ^ 53). apply Z.pow_le_mono_r; lia. }
    assert (2 ^ 1 <= 2 ^ (ey - ex)) by (apply Z.pow_le_mono_r; lia).
    rewrite Z.pow_1_r in *. nia.
  - discriminate.
Qed.

Lemma new_location_inexact n r : new_location n r <> loc_Exact -> r <> 0.
Proof.
  unfold new_location, new_location_even, new_location_odd.
  intros Hl ->. destruct (Z.even n); cbn in Hl; congruence.
Qed.

Lemma SFdiv_unit mx ex my ey :
  valid_binary (S754_finite false mx ex) = true ->
  valid_binary (S754_finite false my ey) = true ->
  SFleb (S754_finite false mx ex) (S754_finite false my ey) = true ->
  unit_result (SF64div (S754_finite false mx ex) (S754_finite false my ey)).
Proof.
  intros Hx Hy Hle.
  destruct (SFleb_finite mx ex my ey Hx Hy Hle) as [Hexp Hman].
  unfold SF64div, SFdiv, SFdiv_core_binary. cbn [xorb Zdigits2].
  set (d1 := Zpos (digits2_pos mx)). set (d2 := Zpos (digits2_pos my)).
  set (e' := Z.min (fexp prec emax (d1 + ex - (d2 + ey))) (ex - ey)).
  set (s := ex - ey - e').
  set (m' := match s with
             | 0 => Zpos mx
             | Zpos _ => Z.shiftl (Zpos mx) s
             | Zneg _ => 0
             end).
  assert (Hd : d1 + ex - (d2 + ey) <= 0).
  { destruct (digits2_pos_bounds mx) as [Hlx _].
    destruct (digits2_pos_bounds my) as [_ Hhy]. fold d1 in Hlx. fold d2 in Hhy.
    assert (Hp : 0 < 2 ^ (ey - ex)) by (apply Z.pow_pos_nonneg; lia).
    assert (Hlt : 2 ^ (d1 - 1) < 2 ^ (d2 + (ey - ex))).
    { rewrite Z.pow_add_r by (unfold d2; lia). nia. }
    apply Z.pow_lt_mono_r_iff in Hlt; unfold d2 in *; lia. }
  assert (He' : e' <= -52 /\ e' <= ex - ey).
  { unfold e', fexp, emin. change prec with 53. change emax with 1024. lia. }
  assert (Hs : 0 <= s) by (unfold s; lia).
  assert (Hm' : m' = Zpos mx * 2 ^ s).
  { unfold m'. destruct s as [|p|p] eqn:Hsp; [cbn; lia| |lia].
    apply Z.shiftl_mul_pow2. lia. }
  assert (Hbound : m' <= Zpos my * 2 ^ (- e')).
  { rewrite Hm'. replace (- e') with ((ey - ex) + s) by (unfold s; lia).
    rewrite Z.pow_add_r by lia.
    assert (0 < 2 ^ s) by (apply Z.pow_pos_nonneg; lia). nia. }
  assert (Hm'0 : 0 <= m').
  { rewrite Hm'. assert (0 < 2 ^ s) by (apply Z.pow_pos_nonneg; lia). nia. }
  clearbody m'. clear Hm'.
  pose proof (Z_div_mod m' (Zpos my) ltac:(lia)) as Hdiv.
  destruct (Z.div_eucl m' (Zpos my)) as [q r]. destruct Hdiv as [Heq Hr].
  assert (Hpow : 0 < 2 ^ (- e')) by (apply Z.pow_pos_nonneg; lia).
  apply binary_round_aux_unit.
  - nia.
  - lia.
  - nia.
  - intros Hl%new_location_inexact. nia.
Qed.

End Binary64.

(** *** The primitive operations *)

Section Float64.
Local Open Scope float_scope.

Lemma leb_key x y :
  (x <=? y) = true <->
  exists a b, fkey x = Some a /\ fkey y = Some b /\ (a <= b)%Z.
Proof.
  rewrite FloatAxioms.leb_spec. unfold SFleb, fkey.
  rewrite (SFcompare_key _ _ (Prim2SF_valid x) (Prim2SF_valid y)).
  destruct (SFkey (Prim2SF x)) as [a|], (SFkey (Prim2SF y)) as [b|].
  2-4: split; [discriminate|intros (? & ? & ? & ? & ?); discriminate].
  destruct (Z.compare_spec a b); split; try discriminate; try reflexivity.
  1, 2: intros _; exists a, b; repeat split; lia.
  intros (? & ? & [= <-] & [= <-] & ?). lia.
Qed.

Lemma ltb_key x y :
  (x <? y) = true <->
  exists a b, fkey x = Some a /\ fkey y = Some b /\ (a < b)%Z.
Proof.
  rewrite FloatAxioms.ltb_spec. unfold SFltb, fkey.
  rewrite (SFcompare_key _ _ (Prim2SF_valid x) (Prim2SF_valid y)).
  destruct (SFkey (Prim2SF x)) as [a|], (SFkey (Prim2SF y)) as [b|].
  2-4: split; [discriminate|intros (? & ? & ? & ? & ?); discriminate].
  destruct (Z.compare_spec a b); split; try discriminate; try reflexivity.
  2: intros _; exists a, b; repeat split; lia.
  all: intros (? & ? & [= <-] & [= <-] & ?); lia.
Qed.

Lemma eqb_key x y :
  (x =? y) = true <->
  exists a, fkey x = Some a /\ fkey y = Some a.
Proof.
  rewrite FloatAxioms.eqb_spec. unfold SFeqb, fkey.
  rewrite (SFcompare_key _ _ (Prim2SF_valid x) (Prim2SF_valid y)).
  destruct (SFkey (Prim2SF x)) as [a|], (SFkey (Prim2SF y)) as [b|].
  2-4: split; [discriminate|intros (? & ? & ?); discriminate].
  destruct (Z.compare_spec a b); split; try discriminate; try reflexivity.
  1: subst; eauto.
  all: intros (? & [= <-] & [= <-]); lia.
Qed.

Lemma is_nan_key x : is_nan x = true <-> fkey x = None.
Proof.
  unfold is_nan. rewrite negb_true_iff, <- not_true_iff_false, eqb_key.
  destruct (fkey x) as [a|]; split; try discriminate; try reflexivity.
  - intros Hn. destruct Hn. eauto.
  - intros _ (? & ? & ?). discriminate.
Qed.

Lemma is_nan_false_key x : is_nan x = false <-> exists a, fkey x = Some a.
Proof.
  rewrite <- not_true_iff_false, is_nan_key.
  destruct (fkey x) as [a|]; split; eauto; try congruence.
  intros (? & ?). discriminate.
Qed.


Lemma float_leb_defined x y :
  (x <=? y) = true -> is_nan x = false /\ is_nan y = false.
Proof.
  intros (a & b & Ha & Hb & _)%leb_key.
  split; apply is_nan_false_key; eauto.
Qed.

Lemma float_leb_refl x : is_nan x = false -> (x <=? x) = true.
Proof.
  intros [a Ha]%is_nan_false_key. apply leb_key. exists a, a. auto with zarith.
Qed.

Lemma float_leb_total x y :
  is_nan x = false -> is_nan y = false ->
  (x <=? y) = false -> (y <=? x) = true.
Proof.
  intros [a Ha]%is_nan_false_key [b Hb]%is_nan_false_key Hxy.
  apply leb_key. exists b, a. repeat split; try assumption.
  destruct (Z_le_gt_dec b a) as [|Hgt]; [assumption|].
  assert ((x <=? y) = true) by (apply leb_key; exists a, b; auto with zarith).
  congruence.
Qed.

Lemma float_leb_trans x y z :
  (x <=? y) = true -> (y <=? z) = true -> (x <=? z) = true.
Proof.
  intros (a & b & Ha & Hb & Hab)%leb_key (b' & c & Hb' & Hc & Hbc)%leb_key.
  apply leb_key. exists a, c. repeat split; try assumption.
  rewrite Hb in Hb'. injection Hb' as <-. lia.
Qed.

Lemma fkey_zero : fkey 0 = Some 0%Z.
Proof. reflexivity. Qed.

Lemma fkey_one : fkey 1 = Some 9218868437227405312%Z.
Proof. reflexivity. Qed.

Lemma fkey_infinity : fkey infinity = Some 18446744073709551616%Z.
Proof. reflexivity. Qed.

Lemma SFkey_nan X : SFkey X = None -> X = S754_nan.
Proof. destruct X; cbn; congruence. Qed.

Lemma SFkey_zero X :
  valid_binary X = true -> SFkey X = Some 0%Z -> exists s, X = S754_zero s.
Proof.
  intros Hv. destruct X as [s|s| |s m e]; cbn.
  - eauto.
  - destruct s; discriminate.
  - discriminate.
  - pose proof (finite_key_bounds s m e Hv). destruct s; intros [= ?]; lia.
Qed.

Lemma SFkey_positive_finite X a :
  valid_binary X = true -> SFkey X = Some a ->
  (0 < a < 18446744073709551616)%Z ->
  exists m e, X = S754_finite false m e.
Proof.
  intros Hv. destruct X as [s|s| |s m e]; cbn; try discriminate.
  - intros [= <-]. lia.
  - destruct s; intros [= <-]; lia.
  - pose proof (finite_key_bounds s m e Hv).
    destruct s; intros [= <-]; [lia|eauto].
Qed.

Lemma unit_result_key R :
  valid_binary R = true -> unit_result R ->
  exists a, SFkey R = Some a /\ (0 <= a <= 9218868437227405312)%Z.
Proof.
  intros Hv [[s ->]|(m & e & -> & He)]; cbn [SFkey].
  - exists 0%Z. split; [reflexivity|lia].
  - eexists. split; [reflexivity|].
    pose proof (finite_key_bounds _ _ _ Hv) as Hk.
    apply valid_finite in Hv as (Hd & Hev & _).
    assert (Zpos m < 9007199254740992)%Z.
    { destruct (digits2_pos_bounds m) as [_ Hhi].
      eapply Z.lt_le_trans; [exact Hhi|].
      change 9007199254740992%Z with (2 ^ 53)%Z. apply Z.pow_le_mono_r; lia. }
    unfold finite_key in *. lia.
Qed.

(** Division by NaN or of NaN, and of zero by zero. *)
Lemma div_nan_l x m : is_nan x = true -> is_nan (x / m) = true.
Proof.
  rewrite !is_nan_key. unfold fkey. rewrite FloatAxioms.div_spec.
  intros ->%SFkey_nan. reflexivity.
Qed.

Lemma div_nan_r x m : is_nan m = true -> is_nan (x / m) = true.
Proof.
  rewrite !is_nan_key. unfold fkey. rewrite FloatAxioms.div_spec.
  intros ->%SFkey_nan. destruct (Prim2SF x); reflexivity.
Qed.

Lemma div_zero_zero x m :
  (x =? 0) = true -> (m =? 0) = true -> is_nan (x / m) = true.
Proof.
  intros (a & Hx & Ha)%eqb_key (b & Hm & Hb)%eqb_key.
  rewrite fkey_zero in Ha, Hb. injection Ha as <-. injection Hb as <-.
  apply (SFkey_zero _ (Prim2SF_valid x)) in Hx as [sx Hx].
  apply (SFkey_zero _ (Prim2SF_valid m)) in Hm as [sm Hm].
  apply is_nan_key. unfold fkey. rewrite FloatAxioms.div_spec, Hx, Hm. reflexivity.
Qed.

(** The quotient of a number that is not negative by a positive finite
    number that bounds it. *)
Lemma div_unit x m :
  is_nan x = false -> (x <? 0) = false -> (x <=? m) = true ->
  (0 <? m) = true -> (m <? infinity) = true ->
  is_nan (x / m) = false /\ (x / m <? 0) = false /\
  (0 <=? x / m) = true /\ (x / m <=? 1) = true.
Proof.
  intros [a Ha]%is_nan_false_key Hneg Hle Hpos Hfin.
  pose proof Hle as Hle'. rewrite FloatAxioms.leb_spec in Hle'.
  apply leb_key in Hle as (a' & b & Ha' & Hb & Hab).
  rewrite Ha in Ha'. injection Ha' as <-.
  apply ltb_key in Hpos as (z & b' & Hz & Hb' & Hzb).
  rewrite fkey_zero in Hz. injection Hz as <-.
  rewrite Hb in Hb'. injection Hb' as <-.
  apply ltb_key in Hfin as (b' & i & Hb' & Hi & Hbi).
  rewrite fkey_infinity in Hi. injection Hi as <-.
  rewrite Hb in Hb'. injection Hb' as <-.
  assert (Ha0 : (0 <= a)%Z).
  { destruct (Z_le_gt_dec 0 a) as [|Hgt]; [assumption|].
    assert ((x <? 0) = true)
      by (apply ltb_key; exists a, 0%Z; rewrite fkey_zero; auto with zarith).
    congruence. }
  destruct (SFkey_positive_finite _ b (Prim2SF_valid m) Hb ltac:(lia))
    as (my & ey & HM).
  assert (HR : unit_result (Prim2SF (x / m))).
  { rewrite FloatAxioms.div_spec, HM.
    destruct (Z.eq_dec a 0%Z) as [->|Hne].
    - apply (SFkey_zero _ (Prim2SF_valid x)) in Ha as [s ->].
      left. eexists. reflexivity.
    - destruct (SFkey_positive_finite _ a (Prim2SF_valid x) Ha ltac:(lia))
        as (mx & ex & HX).
      rewrite HX. apply SFdiv_unit.
      + rewrite <- HX. apply Prim2SF_valid.
      + rewrite <- HM. apply Prim2SF_valid.
      + rewrite <- HX, <- HM. exact Hle'. }
  destruct (unit_result_key _ (Prim2SF_valid (x / m)) HR) as (r & Hr & Hr01).
  fold (fkey (x / m)) in Hr.
  split; [apply is_nan_false_key; eauto|]. split.
  - apply not_true_iff_false. intros (r' & z & Hr' & Hz & Hlt)%ltb_key.
    rewrite fkey_zero in Hz. injection Hz as <-.
    rewrite Hr in Hr'. injection Hr' as <-. lia.
  - split; apply leb_key.
    + exists 0%Z, r. rewrite fkey_zero. repeat split; [assumption|lia].
    + exists r, 9218868437227405312%Z. rewrite fkey_one.
      repeat split; [assumption|lia].
Qed.

End Float64.

(** ** The [fmax] reduction *)

Section Normalisation.
Local Open Scope float_scope.
Implicit Types (x y m : float) (row : list float)
  (a : ndarray) (st : gmap positive ndarray).

Lemma float_ltb_leb_trans x y z :
  (x <? y) = true -> (y <=? z) = true -> (x <? z) = true.
Proof.
  intros (p & q & Hp & Hq & Hpq)%ltb_key (q' & r & Hq' & Hr & Hqr)%leb_key.
  apply ltb_key. exists p, r. repeat split; try assumption.
  rewrite Hq in Hq'. injection Hq' as <-. lia.
Qed.

Lemma float_leb_ltb_trans x y z :
  (x <=? y) = true -> (y <? z) = true -> (x <? z) = true.
Proof.
  intros (p & q & Hp & Hq & Hpq)%leb_key (q' & r & Hq' & Hr & Hqr)%ltb_key.
  apply ltb_key. exists p, r. repeat split; try assumption.
  rewrite Hq in Hq'. injection Hq' as <-. lia.
Qed.

Lemma fmax_choice x y : fmax x y = x \/ fmax x y = y.
Proof. unfold fmax. destruct ((y <=? x) || is_nan y); auto. Qed.

(** [fmax] returns an upper bound of its defined arguments. *)
Lemma fmax_upper_l x y : is_nan x = false -> (x <=? fmax x y) = true.
Proof.
  intros Hx. unfold fmax.
  destruct (y <=? x) eqn:Hyx; cbn [orb]; [now apply float_leb_refl|].
  destruct (is_nan y) eqn:Hy; [now apply float_leb_refl|].
  now apply float_leb_total.
Qed.

Lemma fmax_upper_r x y : is_nan y = false -> (y <=? fmax x y) = true.
Proof.
  intros Hy. unfold fmax. rewrite Hy, orb_false_r.
  destruct (y <=? x) eqn:Hyx; [assumption|now apply float_leb_refl].
Qed.

(** The reduction picks an item that bounds the defined items. *)
Lemma fold_fmax xs acc :
  fold_left fmax xs acc ∈ acc :: xs /\
  forall x, x ∈ acc :: xs -> is_nan x = false ->
            (x <=? fold_left fmax xs acc) = true.
Proof.
  revert acc. induction xs as [|y ys IH]; intros acc; cbn [fold_left].
  - split; [now left|].
    intros x ->%list_elem_of_singleton Hx. now apply float_leb_refl.
  - destruct (IH (fmax acc y)) as [Hin Hub]. split.
    + apply elem_of_cons in Hin as [Hin|Hin].
      * rewrite Hin. destruct (fmax_choice acc y) as [->| ->];
          [now left|right; now left].
      * do 2 right. exact Hin.
    + intros x Hx Hdef.
      assert (Hstep : x ∈ ys \/ (x <=? fmax acc y) = true).
      { apply elem_of_cons in Hx as [->|Hx]; [right; now apply fmax_upper_l|].
        apply elem_of_cons in Hx as [->|Hx]; [right; now apply fmax_upper_r|].
        now left. }
      destruct Hstep as [Hys|Hle]; [apply Hub; [now right|assumption]|].
      eapply float_leb_trans; [exact Hle|]. apply Hub; [now left|].
      apply (float_leb_defined _ _ Hle).
Qed.

Lemma reduce_fmax_elem row : row <> [] -> reduce_items fmax row ∈ row.
Proof.
  destruct row as [|x xs]; [contradiction|]. intros _. apply fold_fmax.
Qed.

Lemma reduce_fmax_upper row x :
  x ∈ row -> is_nan x = false -> (x <=? reduce_items fmax row) = true.
Proof.
  destruct row as [|x0 xs]; [now intros ?%not_elem_of_nil|]. apply fold_fmax.
Qed.

(** On a row with a positive finite maximum the reduction is positive and
    finite too. *)
Lemma reduce_fmax_positive_finite row m :
  row_maximum row m -> positive_finite m ->
  positive_finite (reduce_items fmax row).
Proof.
  intros (Hin & Hdef & Hub) [Hpos Hfin].
  assert (Hne : row <> []) by (intros ->; now apply not_elem_of_nil in Hin).
  pose proof (reduce_fmax_upper row m Hin Hdef) as Hle.
  pose proof (reduce_fmax_elem row Hne) as Hr.
  specialize (Hub _ Hr (proj2 (float_leb_defined _ _ Hle))).
  split.
  - eapply float_ltb_leb_trans; eassumption.
  - eapply float_leb_ltb_trans; eassumption.
Qed.

(** ** The items of the normalised array *)

Lemma normalise_item_unit m x :
  positive_finite m ->
  negative x = false ->
  (is_nan x = false -> (x <=? m) = true) ->
  in_unit (normalise_item m x).
Proof.
  intros [Hpos Hfin] Hneg Hub. unfold normalise_item.
  destruct (is_nan x) eqn:Hx.
  - rewrite (div_nan_l x m Hx). split; reflexivity.
  - destruct (div_unit x m Hx Hneg (Hub eq_refl) Hpos Hfin)
      as (Hdef & Hnn & Hlo & Hhi).
    rewrite Hdef. unfold negative. rewrite Hnn. split; assumption.
Qed.

Lemma normalise_item_zero m x :
  (PrimFloat.is_zero m = true /\ PrimFloat.is_zero x = true) \/
  (is_nan m = true /\ is_nan x = true) ->
  is_nan (x / m) = true /\ normalise_item m x = 0.
Proof.
  intros Hdeg.
  assert (Hnan : is_nan (x / m) = true).
  { destruct Hdeg as [[Hm Hx]|[Hm Hx]];
      [now apply div_zero_zero|now apply div_nan_l]. }
  split; [assumption|]. unfold normalise_item. now rewrite Hnan.
Qed.

Lemma normalised_shape a :
  rectangular a ->
  shape (NdArray (ncols a) (map normalise_row (rows a))) = shape a /\
  rectangular (NdArray (ncols a) (map normalise_row (rows a))).
Proof.
  intros Hrect. split.
  - unfold shape, nrows. cbn. now rewrite length_map.
  - unfold rectangular in *. cbn. apply Forall_map.
    eapply Forall_impl; [exact Hrect|]. intros row Hrow. cbn.
    unfold normalise_row. now rewrite length_map.
Qed.

Lemma no_negative_item a row x :
  no_negative a -> row ∈ rows a -> x ∈ row -> negative x = false.
Proof.
  unfold no_negative. rewrite Forall_forall. intros Ha Hrow Hx.
  specialize (Ha row Hrow). rewrite Forall_forall in Ha. now apply Ha.
Qed.

Lemma normalise_row_unit a row m :
  no_negative a -> row ∈ rows a ->
  row_maximum row m -> positive_finite m ->
  Forall in_unit (normalise_row row).
Proof.
  intros Ha Hrow Hmax Hm.
  pose proof (reduce_fmax_positive_finite row m Hmax Hm) as Hred.
  unfold normalise_row. apply Forall_map, Forall_forall.
  intros x Hx. cbn. apply normalise_item_unit.
  - exact Hred.
  - eapply no_negative_item; eassumption.
  - intros Hdef. now apply reduce_fmax_upper.
Qed.

Lemma map_constant {A B} (f : A -> B) (c : B) (l : list A) :
  (forall k, k ∈ l -> f k = c) -> map f l = replicate (length l) c.
Proof.
  induction l as [|k l IH]; intros Hf; cbn; [reflexivity|].
  rewrite Hf by now left. f_equal. apply IH. intros k' Hk. apply Hf. now right.
Qed.

(** A row of zeros or of NaN: every quotient is NaN, every item becomes 0. *)
Lemma normalise_row_degenerate row :
  Forall (fun x => PrimFloat.is_zero x = true) row \/
  Forall (fun x => is_nan x = true) row ->
  Forall (fun x => is_nan (x / reduce_items fmax row) = true) row /\
  normalise_row row = replicate (length row) 0.
Proof.
  intros Hrow. destruct row as [|x0 xs]; [split; [constructor|reflexivity]|].
  assert (Hne : x0 :: xs <> []) by discriminate.
  pose proof (reduce_fmax_elem _ Hne) as Hm.
  assert (Hitem : forall x, x ∈ x0 :: xs ->
            is_nan (x / reduce_items fmax (x0 :: xs)) = true /\
            normalise_item (reduce_items fmax (x0 :: xs)) x = 0).
  { intros x Hx. apply normalise_item_zero.
    destruct Hrow as [Hz|Hn]; [left; rewrite Forall_forall in Hz
                              |right; rewrite Forall_forall in Hn]; auto. }
  split.
  - apply Forall_forall. intros x Hx. now apply Hitem.
  - unfold normalise_row. apply map_constant. intros x Hx. now apply Hitem.
Qed.

(** C1 (amended): on a rectangular array with at least one column and no
    negative item, [patient_normalise] returns an array of the same shape,
    and every item of a row whose maximum is positive and finite lies in
    the closed range from 0 to 1. *)
Theorem patient_normalise_unit_range st l a :
  st !! l = Some a -> rectangular a -> no_negative a -> 0 < ncols a ->
  exists r b,
    patient_normalise (PyArray l) st = (Ok r, <[r := b]> st) /\
    shape b = shape a /\ rectangular b /\
    forall i row m,
      rows a !! i = Some row -> row_maximum row m -> positive_finite m ->
      exists row',
        rows b !! i = Some row' /\ length row' = length row /\
        Forall in_unit row'.
Proof.
  intros Hl Hrect Hneg Hcols. eexists _, _. split.
  - apply (patient_normalise_run st l a Hl Hneg). lia.
  - destruct (normalised_shape a Hrect) as [Hshape Hrect'].
    split; [exact Hshape|]. split; [exact Hrect'|].
    intros i row m Hrow Hmax Hm. exists (normalise_row row). cbn.
    rewrite list_lookup_fmap, Hrow. split; [reflexivity|]. split.
    + unfold normalise_row. now rewrite length_map.
    + eapply normalise_row_unit; try eassumption.
      eapply list_elem_of_lookup_2, Hrow.
Qed.

(** C5 (amended): on a rectangular array with at least one column and no
    negative item, a row that is all zero or all NaN becomes a row of
    zeros: every quotient of the row is NaN, and the NaN items are set
    to 0. *)
Theorem patient_normalise_degenerate_rows st l a :
  st !! l = Some a -> rectangular a -> no_negative a -> 0 < ncols a ->
  exists r b,
    patient_normalise (PyArray l) st = (Ok r, <[r := b]> st) /\
    forall i row,
      rows a !! i = Some row ->
      Forall (fun x => PrimFloat.is_zero x = true) row \/
      Forall (fun x => is_nan x = true) row ->
      Forall (fun x => is_nan (x / reduce_items fmax row) = true) row /\
      rows b !! i = Some (replicate (length row) 0).
Proof.
  intros Hl Hrect Hneg Hcols. eexists _, _. split.
  - apply (patient_normalise_run st l a Hl Hneg). lia.
  - intros i row Hrow Hdeg. cbn. rewrite list_lookup_fmap, Hrow. cbn.
    destruct (normalise_row_degenerate row Hdeg) as [Hnan Hzero].
    split; [exact Hnan|]. now rewrite Hzero.
Qed.

End Normalisation.

(** ** The daily statistics *)

(** C6: on [[1, 2], [3, 4]] the daily mean is [2, 3], the daily maximum
    [3, 4], the daily minimum [1, 2] and the daily standard deviation
    [1.0, 1.0]; [daily_std] divides the sum of the squared deviations by
    the number of rows (here [2, 2] by 2), not by that number minus one,
    which would give another result. *)
Theorem daily_statistics_example :
  daily_mean matrix_1234 = [2; 3]%float /\
  daily_max matrix_1234 = Ok [3; 4]%float /\
  daily_min matrix_1234 = Ok [1; 2]%float /\
  daily_std matrix_1234 = [1; 1]%float /\
  (forall data : ndarray,
     daily_std data =
       map PrimFloat.sqrt
           (map (fun s => s / of_count (nrows data))%float
                (sum_squared_deviations data))) /\
  sum_squared_deviations matrix_1234 = [2; 2]%float /\
  np_std_axis0 1 matrix_1234 <> daily_std matrix_1234.
Proof.
  repeat split; try (vm_compute; reflexivity).
  - intros data. unfold daily_std, np_std_axis0, np_var_axis0.
    now rewrite Nat.sub_0_r.
  - intros Heq.
    apply (f_equal (fun l => match l with
                             | x :: _ => PrimFloat.eqb x 1
                             | [] => false
                             end)) in Heq.
    vm_compute in Heq. discriminate.
Qed.

(** C7 (amended): for a valid row index of an array with at least one
    column, [daily_above_threshold] returns the number of items of the row
    that are above the threshold; an item equal to the threshold does not
    count: in [[1, 5, 9], [2, 2, 2]], row 0 has 2 items above 3 and none
    above 9. *)
Theorem daily_above_threshold_counts :
  (forall (data : ndarray) i threshold row,
     np_getitem data i = Ok row ->
     row <> [] ->
     daily_above_threshold data i threshold = Ok (count_above threshold row)) /\
  (forall threshold row, (threshold <? threshold)%float = false /\
     (0 <= count_above threshold row <= Z.of_nat (length row))%Z) /\
  daily_above_threshold matrix_159_222 0 3%float = Ok 2%Z /\
  daily_above_threshold matrix_159_222 0 9%float = Ok 0%Z.
Proof.
  split; [|split; [|split; vm_compute; reflexivity]].
  - intros data i threshold row. apply daily_above_threshold_row.
  - intros threshold row. split.
    + apply not_true_iff_false. intros (p & q & Hp & Hq & Hlt)%ltb_key.
      rewrite Hp in Hq. injection Hq as <-. lia.
    + unfold count_above.
      pose proof (length_filter (fun x => (threshold <? x)%float = true) row).
      lia.
Qed.

(** ** Instances of the properties *)

Lemma daily_above_threshold_counts_witness :
  daily_above_threshold matrix_159_222 (-1) 1%float
  = Ok (count_above 1%float [2; 2; 2]%float).
Proof.
  apply (proj1 daily_above_threshold_counts matrix_159_222 (-1)%Z
           1%float [2; 2; 2]%float).
  - reflexivity.
  - discriminate.
Defined.

(** Without columns the row is empty and [reduce] raises: no count. *)
Lemma daily_above_threshold_empty_row :
  np_getitem matrix_two_no_days 0 = Ok [] /\
  daily_above_threshold matrix_two_no_days 0 3%float =
    Raise (TypeError "reduce() of empty iterable with no initial value").
Proof. split; reflexivity. Qed.

Lemma daily_above_threshold_no_columns_witness :
  daily_above_threshold matrix_no_days 0 3%float =
    Raise (TypeError "reduce() of empty iterable with no initial value") /\
  daily_above_threshold matrix_no_days 0 3%float <> Ok 0%Z.
Proof.
  apply (daily_above_threshold_no_columns matrix_no_days 0%Z 3%float).
  - repeat constructor.
  - reflexivity.
  - exists []. reflexivity.
Defined.

(** A run on the sample with NaN items, a row of zeros and a row of NaN. *)
Example patient_normalise_mixed :
  let '(res, st') :=
    patient_normalise (PyArray 1%positive) {[ 1%positive := matrix_mixed ]} in
  res = Ok 2%positive /\
  st' !! 1%positive = Some matrix_mixed /\
  st' !! 2%positive =
    Some (NdArray 3 [[0.25; 0.5; 1]; [0; 1; 0]; [0; 0; 0]; [0; 0; 0]]%float).
Proof. vm_compute. repeat split. Qed.

Lemma matrix_mixed_valid : rectangular matrix_mixed /\ no_negative matrix_mixed.
Proof. split; repeat constructor. Qed.

Lemma patient_normalise_unit_range_witness :
  exists r b,
    patient_normalise (PyArray 1%positive) {[ 1%positive := matrix_mixed ]}
    = (Ok r, <[r := b]> {[ 1%positive := matrix_mixed ]}) /\
    shape b = (4, 3) /\
    exists row', rows b !! 1 = Some row' /\ length row' = 3 /\
                 Forall in_unit row'.
Proof.
  destruct (patient_normalise_unit_range
              {[ 1%positive := matrix_mixed ]} 1%positive matrix_mixed
              (lookup_singleton_eq _ _)
              (proj1 matrix_mixed_valid) (proj2 matrix_mixed_valid)
              ltac:(cbn; lia))
    as (r & b & Hrun & Hshape & _ & Hrange).
  exists r, b. split; [exact Hrun|]. split; [exact Hshape|].
  apply (Hrange 1 [nan; 3; 0]%float 3%float).
  - reflexivity.
  - split; [right; left|split; [reflexivity|]].
    intros x Hx Hdef.
    repeat (apply elem_of_cons in Hx as [->|Hx]; [try discriminate; reflexivity|]).
    now apply not_elem_of_nil in Hx.
  - split; reflexivity.
Defined.

(** One patient without days: the array is rectangular and has no negative
    item, and [np.nanmax] raises instead of an array being returned. *)
Lemma patient_normalise_no_days_raises :
  rectangular matrix_no_days /\ no_negative matrix_no_days /\
  patient_normalise (PyArray 1%positive) {[ 1%positive := matrix_no_days ]}
  = (Raise (ValueError
       "zero-size array to reduction operation fmax which has no identity"),
     {[ 1%positive := matrix_no_days ]}).
Proof.
  split; [repeat constructor|]. split; [repeat constructor|].
  apply (patient_normalise_no_columns _ 1%positive matrix_no_days);
    [apply lookup_singleton_eq|repeat constructor|reflexivity].
Qed.

Lemma patient_normalise_degenerate_rows_witness :
  exists r b,
    patient_normalise (PyArray 1%positive) {[ 1%positive := matrix_mixed ]}
    = (Ok r, <[r := b]> {[ 1%positive := matrix_mixed ]}) /\
    rows b !! 2 = Some [0; 0; 0]%float /\
    rows b !! 3 = Some [0; 0; 0]%float.
Proof.
  destruct (patient_normalise_degenerate_rows
              {[ 1%positive := matrix_mixed ]} 1%positive matrix_mixed
              (lookup_singleton_eq _ _)
              (proj1 matrix_mixed_valid) (proj2 matrix_mixed_valid)
              ltac:(cbn; lia))
    as (r & b & Hrun & Hrows).
  exists r, b. split; [exact Hrun|]. split.
  - apply (Hrows 2 [0; -0; 0]%float eq_refl).
    left. repeat constructor.
  - apply (Hrows 3 [nan; nan; nan]%float eq_refl).
    right. repeat constructor.
Defined.

(** The row of a patient without days is all zero, and no row comes back:
    the call raises. *)
Lemma patient_normalise_zero_row_raises :
  rows matrix_no_days !! 0 = Some [] /\
  Forall (fun x => PrimFloat.is_zero x = true) ([] : list float) /\
  rectangular matrix_no_days /\ no_negative matrix_no_days /\
  forall r st',
    patient_normalise (PyArray 1%positive) {[ 1%positive := matrix_no_days ]}
    <> (Ok r, st').
Proof.
  split; [reflexivity|]. split; [constructor|].
  split; [repeat constructor|]. split; [repeat constructor|].
  intros r st'.
  rewrite (patient_normalise_no_columns _ 1%positive matrix_no_days);
    [discriminate|apply lookup_singleton_eq|repeat constructor|reflexivity].
Qed.

Lemma patient_normalise_rejects_negative_witness :
  patient_normalise (PyArray 1%positive) {[ 1%positive := matrix_negative ]}
  = (Raise (ValueError "Inflammation values should not be negative"),
     {[ 1%positive := matrix_negative ]}).
Proof.
  apply (patient_normalise_rejects_negative _ 1%positive matrix_negative).
  - apply lookup_singleton_eq.
  - exists [1; -1]%float, (-1)%float.
    split; [left|split; [right; left|reflexivity]].
Defined.

(** The message raised on [[1, -1], [2, 3]] is the one of the source. *)
Lemma patient_normalise_negative_message :
  fst (patient_normalise (PyArray 1%positive)
         {[ 1%positive := matrix_negative ]})
  = Raise (ValueError "Inflammation values should not be negative") /\
  fst (patient_normalise (PyArray 1%positive)
         {[ 1%positive := matrix_negative ]})
  <> Raise (ValueError "values must not be negative").
Proof.
  rewrite (patient_normalise_raise _ 1%positive matrix_negative
             [1; -1]%float (-1)%float);
    [|apply lookup_singleton_eq|left|right; left|reflexivity].
  split; [reflexivity|discriminate].
Qed.

Lemma patient_normalise_type_error_witness :
  exists msg,
    patient_normalise (PyStr "hello") (∅ : gmap positive ndarray)
    = (Raise (TypeError msg), ∅).
Proof.
  apply (patient_normalise_type_error ∅ (PyStr "hello")).
  - reflexivity.
  - discriminate.
Defined.

(** The number -5 is not an array, and the call raises [ValueError]. *)
Lemma patient_normalise_negative_scalar :
  isinstance_ndarray (PyNum (-5)%float) = false /\
  patient_normalise (PyNum (-5)%float) (∅ : gmap positive ndarray)
  = (Raise (ValueError "Inflammation values should not be negative"), ∅).
Proof. split; reflexivity. Qed.

Lemma patient_normalise_no_mutation_witness :
  exists r st',
    patient_normalise (PyArray 1%positive) {[ 1%positive := matrix_1234 ]}
    = (Ok r, st') /\
    st' !! 1%positive = Some matrix_1234 /\ r <> 1%positive.
Proof.
  pose proof (patient_normalise_no_mutation
                {[ 1%positive := matrix_1234 ]} 1%positive matrix_1234
                (lookup_singleton_eq _ _)) as [Hframe Hret].
  destruct (Hret ltac:(repeat constructor) ltac:(discriminate))
    as (r & st' & Hrun).
  exists r, st'. split; [exact Hrun|].
  destruct (Hframe _ _ Hrun) as (Hsame & _ & Hnew).
  split; [exact Hsame|]. apply (Hnew r eq_refl).
Defined.

(** * Further properties of the record model *)

Section RecordExtras.
Context {V : Type}.
Implicit Types (w : @world V) (p : @Patient V) (doc : Doctor)
  (c : @call V) (cs : list (@call V)).

(** A call of [add_observation] with a day. *)
Lemma add_observation_explicit_run w self p (v : V) (d : Z) :
  heap w !! self = Some (OPatient p) ->
  add_observation self v (Some d) w =
    (Ok {| day := d; value := v |},
     World (<[self := OPatient {| patient_name := patient_name p;
                                  observations := observations p
                                                  ++ [{| day := d; value := v |}] |}]>
              (heap w))
           (stdout w)).
Proof.
  intros Hself. unfold add_observation, bind, get_patient. rewrite Hself.
  reflexivity.
Qed.

(** X1: a day given to [add_observation] is kept as it is, whatever the
    days of the observations already there (no order, no uniqueness is
    asked), and the next observation without a day gets the day after
    it. *)
Theorem add_observation_explicit_then_default w self p (v1 v2 : V) (d : Z) :
  heap w !! self = Some (OPatient p) ->
  exists o1 w1 o2 w2,
    add_observation self v1 (Some d) w = (Ok o1, w1) /\
    add_observation self v2 None w1 = (Ok o2, w2) /\
    day o1 = d /\ day o2 = (d + 1)%Z /\
    heap w2 !! self =
      Some (OPatient {| patient_name := patient_name p;
                        observations := observations p ++ [o1; o2] |}).
Proof.
  intros Hself. eexists _, _, _, _. split.
  { apply add_observation_explicit_run, Hself. }
  split.
  { apply add_observation_run. cbn. apply lookup_insert_eq. }
  cbn. rewrite last_snoc. repeat split.
  rewrite lookup_insert_eq, <- app_assoc. reflexivity.
Qed.

Lemma default_days_snoc (n : nat) :
  default_days (S n) = (default_days n ++ [Z.of_nat n])%list.
Proof. unfold default_days. now rewrite seq_S, map_app. Qed.

Lemma last_default_days (n : nat) :
  last (default_days (S n)) = Some (Z.of_nat n).
Proof. rewrite default_days_snoc. apply last_snoc. Qed.

Lemma next_default_day (obs : list (@Observation V)) :
  map day obs = default_days (length obs) ->
  match last obs with
  | Some o => (day o + 1)%Z
  | None => 0%Z
  end = Z.of_nat (length obs).
Proof.
  induction obs as [|o os _] using rev_ind; [reflexivity|].
  intros Hdays. rewrite last_snoc.
  rewrite map_app, length_app in Hdays. cbn in Hdays.
  rewrite Nat.add_1_r, default_days_snoc in Hdays.
  apply app_inj_tail in Hdays as [_ Hlast].
  rewrite length_app. cbn. lia.
Qed.

(** X2: when the days of a patient are 0, 1, ..., n - 1, as they are when
    every observation was added without a day, the next observation added
    without a day gets day n, and the days are then 0, 1, ..., n. *)
Theorem add_observation_counts_days w self p (v : V) :
  heap w !! self = Some (OPatient p) ->
  map day (observations p) = default_days (length (observations p)) ->
  exists o w' p',
    add_observation self v None w = (Ok o, w') /\
    day o = Z.of_nat (length (observations p)) /\
    heap w' !! self = Some (OPatient p') /\
    length (observations p') = S (length (observations p)) /\
    map day (observations p') = default_days (length (observations p')).
Proof.
  intros Hself Hdays. eexists _, _, _. split.
  { apply add_observation_run, Hself. }
  pose proof (next_default_day _ Hdays) as Hd.
  cbn. split; [exact Hd|]. split; [apply lookup_insert_eq|].
  cbn [observations]. rewrite length_app. cbn [length].
  rewrite Nat.add_1_r. split; [reflexivity|].
  rewrite map_app, default_days_snoc, Hdays. cbn [map day]. now rewrite Hd.
Qed.

(** A call of [add_patient] with a name, when the patients the doctor holds
    are objects of the store. *)
Lemma add_patient_name_run w self doc (name : string) l :
  heap w !! self = Some (ODoctor doc) ->
  Forall (fun k => is_Some (heap w !! k)) (patients doc) ->
  l = fresh (dom (heap w)) ->
  heap w !! l = None /\ l <> self /\ (l ∉ patients doc) /\
  add_patient self (AName name) w =
    (Ok (Some l),
     World (<[self := ODoctor {| doctor_name := doctor_name doc;
                                 patients := patients doc ++ [l] |}]>
              (<[l := OPatient {| patient_name := name; observations := [] |}]>
                 (heap w)))
           (stdout w)).
Proof.
  intros Hself Hclosed Hl.
  assert (Hfresh : heap w !! l = None)
    by (rewrite Hl; apply not_elem_of_dom, is_fresh).
  assert (Hne : l <> self) by (intros ->; congruence).
  assert (Hnew : l ∉ patients doc).
  { intros Hin. rewrite Forall_forall in Hclosed.
    destruct (Hclosed l Hin) as [o Ho]. congruence. }
  repeat split; try assumption.
  unfold add_patient, bind, ret, get_doctor, Patient_init, new_object.
  rewrite <- Hl. cbn [heap stdout].
  rewrite lookup_insert_ne by assumption. rewrite Hself.
  rewrite bool_decide_eq_true_2 by assumption. reflexivity.
Qed.

(** X3: [add_patient] with a name makes a new patient of that name without
    observations, puts it at the end of the doctor's list and returns it,
    and prints nothing; the same name twice gives two different patients,
    both held. *)
Theorem add_patient_same_name_twice w self doc (name : string) :
  heap w !! self = Some (ODoctor doc) ->
  Forall (fun l => is_Some (heap w !! l)) (patients doc) ->
  exists l1 w1 l2 w2,
    add_patient self (AName name) w = (Ok (Some l1), w1) /\
    add_patient self (AName name) w1 = (Ok (Some l2), w2) /\
    l1 <> l2 /\ heap w !! l1 = None /\ heap w !! l2 = None /\
    heap w2 !! self =
      Some (ODoctor {| doctor_name := doctor_name doc;
                       patients := patients doc ++ [l1; l2] |}) /\
    heap w2 !! l1 =
      Some (OPatient {| patient_name := name; observations := [] |}) /\
    heap w2 !! l2 =
      Some (OPatient {| patient_name := name; observations := [] |}) /\
    stdout w2 = stdout w.
Proof.
  intros Hself Hclosed.
  remember (fresh (dom (heap w))) as l1 eqn:Hl1.
  destruct (add_patient_name_run w self doc name l1 Hself Hclosed Hl1)
    as (Hf1 & Hne1 & Hnew1 & Hrun1).
  remember {| doctor_name := doctor_name doc;
              patients := patients doc ++ [l1] |} as doc1 eqn:Hdoc1.
  remember (OPatient {| patient_name := name; observations := [] |})
    as pat eqn:Hpat.
  remember (World (<[self := ODoctor doc1]> (<[l1 := pat]> (heap w)))
                  (stdout w)) as w1 eqn:Hw1.
  assert (Hheap1 : heap w1 = <[self := ODoctor doc1]> (<[l1 := pat]> (heap w)))
    by (rewrite Hw1; reflexivity).
  assert (Hself1 : heap w1 !! self = Some (ODoctor doc1))
    by (rewrite Hheap1; apply lookup_insert_eq).
  assert (Hpat1 : heap w1 !! l1 = Some pat).
  { rewrite Hheap1, lookup_insert_ne by congruence. apply lookup_insert_eq. }
  assert (Hold : forall k o, heap w !! k = Some o -> is_Some (heap w1 !! k)).
  { intros k o Ho. rewrite Hheap1.
    destruct (decide (self = k)) as [->|]; [rewrite lookup_insert_eq; eauto|].
    rewrite lookup_insert_ne by assumption.
    destruct (decide (l1 = k)) as [->|]; [rewrite lookup_insert_eq; eauto|].
    rewrite lookup_insert_ne by assumption. eauto. }
  assert (Hclosed1 : Forall (fun l => is_Some (heap w1 !! l)) (patients doc1)).
  { rewrite Hdoc1. cbn. apply Forall_app. split.
    - eapply Forall_impl; [exact Hclosed|]. intros k [o Ho]. cbn. eauto.
    - constructor; [|constructor]. eauto. }
  remember (fresh (dom (heap w1))) as l2 eqn:Hl2.
  destruct (add_patient_name_run w1 self doc1 name l2 Hself1 Hclosed1 Hl2)
    as (Hf2 & Hne2 & Hnew2 & Hrun2).
  assert (Hl12 : l1 <> l2) by (intros Heq; congruence).
  assert (Hf2' : heap w !! l2 = None).
  { destruct (heap w !! l2) as [o|] eqn:Ho; [|reflexivity].
    destruct (Hold _ _ Ho) as [o' Ho']. congruence. }
  subst pat. exists l1, w1, l2. eexists. split; [exact Hrun1|].
  split; [exact Hrun2|].
  split; [exact Hl12|]. split; [exact Hf1|]. split; [exact Hf2'|].
  cbn [heap stdout]. split.
  { rewrite lookup_insert_eq, Hdoc1. cbn. rewrite <- app_assoc. reflexivity. }
  split.
  { rewrite !lookup_insert_ne by congruence. exact Hpat1. }
  split; [|rewrite Hw1; reflexivity].
  rewrite lookup_insert_ne by congruence. apply lookup_insert_eq.
Qed.

(** X5: on a doctor and a patient of the store, [add_patient] returns the
    patient exactly when the doctor did not hold it; a patient not yet held
    goes to the end of the list and nothing is printed; in both cases the
    doctor holds the patient afterwards. *)
Theorem add_patient_returns w self doc ref p :
  heap w !! self = Some (ODoctor doc) ->
  heap w !! ref = Some (OPatient p) ->
  exists r w1 doc1,
    add_patient self (APatient ref) w = (Ok r, w1) /\
    heap w1 !! self = Some (ODoctor doc1) /\
    ref ∈ patients doc1 /\
    (r = Some ref <-> ref ∉ patients doc) /\
    (r = None <-> ref ∈ patients doc) /\
    (ref ∉ patients doc ->
     patients doc1 = (patients doc ++ [ref])%list /\ stdout w1 = stdout w) /\
    (ref ∈ patients doc -> doc1 = doc /\ heap w1 = heap w).
Proof.
  intros Hself Href. destruct (decide (ref ∈ patients doc)) as [Hin|Hnew].
  - eexists _, _, doc. split; [eapply add_patient_held; eassumption|].
    cbn. split; [exact Hself|]. split; [exact Hin|].
    split; [split; [discriminate|contradiction]|].
    split; [tauto|]. split; [contradiction|tauto].
  - eexists _, _, _. split; [eapply add_patient_new; eassumption|].
    cbn. split; [apply lookup_insert_eq|]. cbn.
    split; [apply elem_of_app; right; now left|].
    split; [tauto|]. split; [split; [discriminate|contradiction]|].
    split; [tauto|contradiction].
Qed.

Lemma object_extends_refl (o : @object V) : object_extends o o.
Proof. destruct o; cbn; split; reflexivity. Qed.

Lemma object_extends_trans (o1 o2 o3 : @object V) :
  object_extends o1 o2 -> object_extends o2 o3 -> object_extends o1 o3.
Proof.
  destruct o1, o2, o3; cbn; try tauto.
  all: intros [Hn1 Hp1] [Hn2 Hp2]; split; [congruence|].
  all: etransitivity; eassumption.
Qed.

Lemma insert_extends (h : gmap positive (@object V)) k o1 l o :
  h !! l = Some o ->
  (forall o0, h !! k = Some o0 -> object_extends o0 o1) ->
  exists o', <[k := o1]> h !! l = Some o' /\ object_extends o o'.
Proof.
  intros Hl Hk. destruct (decide (k = l)) as [->|Hne].
  - exists o1. rewrite lookup_insert_eq. split; [reflexivity|]. now apply Hk.
  - exists o. rewrite lookup_insert_ne by assumption.
    split; [assumption|apply object_extends_refl].
Qed.

Lemma fresh_extends (h : gmap positive (@object V)) o1 l o :
  h !! l = Some o ->
  exists o', <[fresh (dom h) := o1]> h !! l = Some o' /\ object_extends o o'.
Proof.
  intros Hl. apply insert_extends; [assumption|].
  intros o0 Ho0. exfalso.
  assert (h !! fresh (dom h) = None) by apply not_elem_of_dom, is_fresh.
  congruence.
Qed.

(** One call keeps every object, its class and name, and continues its
    list. *)
Lemma exec_extends c w l o :
  heap w !! l = Some o ->
  exists o', heap (exec c w) !! l = Some o' /\ object_extends o o'.
Proof.
  intros Hl.
  assert (Hsame : exists o', heap w !! l = Some o' /\ object_extends o o').
  { exists o. split; [assumption|apply object_extends_refl]. }
  destruct c as [name|name|self v dy|self [ref|name]]; cbn.
  - now apply fresh_extends.
  - now apply fresh_extends.
  - unfold add_observation, bind, get_patient.
    destruct (heap w !! self) as [[p|dd]|] eqn:Hs; cbn; try exact Hsame.
    assert (forall d0 : Z, exists o',
      <[self := OPatient {| patient_name := patient_name p;
                            observations := observations p
                                            ++ [{| day := d0; value := v |}] |}]>
        (heap w) !! l = Some o' /\ object_extends o o') as Hins.
    { intros d0. apply insert_extends; [assumption|].
      intros o0 Ho0. rewrite Hs in Ho0. injection Ho0 as <-. cbn.
      split; [reflexivity|]. now apply prefix_app_r. }
    destruct dy; cbn; [apply Hins|].
    unfold list_last_item. destruct (last (observations p)); cbn; apply Hins.
  - unfold add_patient, bind, ret, get_doctor.
    destruct (heap w !! self) as [[p|dd]|] eqn:Hs; cbn; try exact Hsame.
    case_bool_decide as Hin; cbn.
    + apply insert_extends; [assumption|].
      intros o0 Ho0. rewrite Hs in Ho0. injection Ho0 as <-. cbn.
      split; [reflexivity|]. now apply prefix_app_r.
    + unfold Person_str. destruct (heap w !! ref) as [[?|?]|]; cbn; exact Hsame.
  - unfold add_patient, bind, ret, get_doctor, Patient_init, new_object. cbn.
    set (k := fresh (dom (heap w))).
    set (o1 := OPatient {| patient_name := name; observations := [] |}).
    destruct (fresh_extends (heap w) o1 l o Hl) as (o' & Ho' & Hext).
    fold k in Ho'.
    destruct (<[k:=o1]> (heap w) !! self) as [[p|dd]|] eqn:Hs; cbn;
      try (exists o'; split; assumption).
    case_bool_decide as Hin; cbn; [|exists o'; split; assumption].
    destruct (insert_extends (<[k:=o1]> (heap w)) self
                (ODoctor {| doctor_name := doctor_name dd;
                            patients := patients dd ++ [k] |}) l o' Ho')
      as (o'' & Ho'' & Hext').
    { intros o0 Ho0. rewrite Hs in Ho0. injection Ho0 as <-. cbn.
      split; [reflexivity|]. now apply prefix_app_r. }
    exists o''. split; [assumption|].
    eapply object_extends_trans; eassumption.
Qed.

(** X4: no sequence of calls removes an object, changes its class or its
    name, or removes or reorders what it holds: the observations of a
    patient and the patients of a doctor only grow at the end. *)
Theorem exec_all_append_only cs w l o :
  heap w !! l = Some o ->
  exists o', heap (exec_all cs w) !! l = Some o' /\ object_extends o o'.
Proof.
  revert w o. induction cs as [|c cs IH]; intros w o Hl; cbn.
  - exists o. split; [assumption|apply object_extends_refl].
  - destruct (exec_extends c w l o Hl) as (o1 & Ho1 & Hext1).
    destruct (IH _ _ Ho1) as (o2 & Ho2 & Hext2).
    exists o2. split; [exact Ho2|].
    eapply object_extends_trans; eassumption.
Qed.

Lemma exec_stdout c w : stdout w `prefix_of` stdout (exec c w).
Proof.
  destruct c as [name|name|self v dy|self [ref|name]]; cbn; try reflexivity.
  - unfold add_observation, bind, get_patient.
    destruct (heap w !! self) as [[p|dd]|]; cbn; try reflexivity.
    destruct dy; cbn; [reflexivity|].
    unfold list_last_item. destruct (last (observations p)); reflexivity.
  - unfold add_patient, bind, ret, get_doctor.
    destruct (heap w !! self) as [[p|dd]|]; cbn; try reflexivity.
    case_bool_decide; cbn; [reflexivity|].
    unfold Person_str. destruct (heap w !! ref) as [[?|?]|]; cbn;
      try reflexivity; now apply prefix_app_r.
  - unfold add_patient, bind, ret, get_doctor, Patient_init, new_object. cbn.
    destruct (_ !! self) as [[p|dd]|]; cbn; try reflexivity.
    case_bool_decide; cbn; [reflexivity|now apply prefix_app_r].
Qed.

(** X6: what has been printed stays: every sequence of calls only adds
    lines at the end of the output; constructing objects and adding
    observations print nothing. *)
Theorem exec_all_output cs w :
  stdout w `prefix_of` stdout (exec_all cs w) /\
  (forall name, stdout (exec (CallPatient name) w) = stdout w) /\
  (forall name, stdout (exec (CallDoctor name) w) = stdout w) /\
  (forall self (v : V) dy,
     stdout (exec (CallAddObservation self v dy) w) = stdout w).
Proof.
  split.
  - revert w. induction cs as [|c cs IH]; intros w; cbn; [reflexivity|].
    etransitivity; [apply exec_stdout|apply IH].
  - split; [reflexivity|]. split; [reflexivity|].
    intros self v dy. cbn. unfold add_observation, bind, get_patient.
    destruct (heap w !! self) as [[p|dd]|]; cbn; try reflexivity.
    destruct dy; cbn; [reflexivity|].
    unfold list_last_item. destruct (last (observations p)); reflexivity.
Qed.

End RecordExtras.

(** * Further properties of the statistics *)

(** ** More on binary64 *)

Section FloatExtras.
Local Open Scope float_scope.
Implicit Types (x y t : float).

Lemma add_nan x y :
  is_nan x = true \/ is_nan y = true -> is_nan (x + y) = true.
Proof.
  rewrite !is_nan_key. unfold fkey. rewrite FloatAxioms.add_spec.
  intros [->%SFkey_nan| ->%SFkey_nan]; [reflexivity|].
  destruct (Prim2SF x); reflexivity.
Qed.

Lemma sub_nan x y :
  is_nan x = true \/ is_nan y = true -> is_nan (x - y) = true.
Proof.
  rewrite !is_nan_key. unfold fkey. rewrite FloatAxioms.sub_spec.
  intros [->%SFkey_nan| ->%SFkey_nan]; [reflexivity|].
  destruct (Prim2SF x); reflexivity.
Qed.

Lemma mul_nan x y :
  is_nan x = true \/ is_nan y = true -> is_nan (x * y) = true.
Proof.
  rewrite !is_nan_key. unfold fkey. rewrite FloatAxioms.mul_spec.
  intros [->%SFkey_nan| ->%SFkey_nan]; [reflexivity|].
  destruct (Prim2SF x); reflexivity.
Qed.

Lemma sqrt_nan x : is_nan x = true -> is_nan (PrimFloat.sqrt x) = true.
Proof.
  rewrite !is_nan_key. unfold fkey. rewrite FloatAxioms.sqrt_spec.
  intros ->%SFkey_nan. reflexivity.
Qed.

Lemma ltb_nan_l x y : is_nan x = true -> (x <? y) = false.
Proof.
  intros Hx%is_nan_key. apply not_true_iff_false.
  intros (a & b & Ha & _)%ltb_key. congruence.
Qed.

Lemma ltb_nan_r x y : is_nan y = true -> (x <? y) = false.
Proof.
  intros Hy%is_nan_key. apply not_true_iff_false.
  intros (a & b & _ & Hb & _)%ltb_key. congruence.
Qed.

Lemma leb_nan_l x y : is_nan x = true -> (x <=? y) = false.
Proof.
  intros Hx%is_nan_key. apply not_true_iff_false.
  intros (a & b & Ha & _)%leb_key. congruence.
Qed.

Lemma leb_nan_r x y : is_nan y = true -> (x <=? y) = false.
Proof.
  intros Hy%is_nan_key. apply not_true_iff_false.
  intros (a & b & _ & Hb & _)%leb_key. congruence.
Qed.

(** The keys lie between those of the infinities, which only they have. *)
Lemma SFkey_range X a :
  valid_binary X = true -> SFkey X = Some a ->
  (- 18446744073709551616 <= a <= 18446744073709551616)%Z.
Proof.
  intros Hv. destruct X as [s|s| |s m e]; cbn.
  - intros [= <-]. lia.
  - destruct s; intros [= <-]; lia.
  - discriminate.
  - pose proof (finite_key_bounds s m e Hv). destruct s; intros [= <-]; lia.
Qed.

Lemma SFkey_infinity X :
  valid_binary X = true -> SFkey X = Some 18446744073709551616%Z ->
  X = S754_infinity false.
Proof.
  intros Hv. destruct X as [s|s| |s m e]; cbn.
  - discriminate.
  - destruct s; [discriminate|reflexivity].
  - discriminate.
  - pose proof (finite_key_bounds s m e Hv). destruct s; intros [= ?]; lia.
Qed.

Lemma SFkey_nonneg X a :
  valid_binary X = true -> SFkey X = Some a -> (0 <= a)%Z ->
  (exists s, X = S754_zero s) \/ (exists m e, X = S754_finite false m e) \/
  X = S754_infinity false.
Proof.
  intros Hv. destruct X as [s|s| |s m e]; cbn.
  - eauto.
  - destruct s; intros [= <-] ?; [lia|auto].
  - discriminate.
  - pose proof (finite_key_bounds s m e Hv).
    destruct s; intros [= <-] ?; [lia|eauto].
Qed.

(** A number whose key is between those of 0 and 1 is in the range. *)
Lemma key_in_unit y a :
  fkey y = Some a -> (0 <= a <= 9218868437227405312)%Z -> in_unit y.
Proof.
  intros Hy Ha. split; apply leb_key.
  - exists 0%Z, a. rewrite fkey_zero. repeat split; [assumption|lia].
  - exists a, 9218868437227405312%Z. rewrite fkey_one.
    repeat split; [assumption|lia].
Qed.

Lemma negative_key x a : fkey x = Some a -> negative x = false -> (0 <= a)%Z.
Proof.
  intros Hx Hneg. destruct (Z_le_gt_dec 0 a) as [|Hgt]; [assumption|].
  assert (negative x = true); [|congruence].
  apply ltb_key. exists a, 0%Z. rewrite fkey_zero. auto with zarith.
Qed.

(** The quotient by infinity of a number that is not negative: a zero or
    NaN. *)
Lemma div_infinity x (m : float) :
  negative x = false -> fkey m = Some 18446744073709551616%Z ->
  is_nan (x / m) = true \/ fkey (x / m) = Some 0%Z.
Proof.
  intros Hneg Hm.
  apply (SFkey_infinity _ (Prim2SF_valid m)) in Hm.
  destruct (fkey x) as [a|] eqn:Hx.
  - pose proof (negative_key x a Hx Hneg) as Ha.
    destruct (SFkey_nonneg _ a (Prim2SF_valid x) Hx Ha)
      as [[s HX]|[(mx & ex & HX)|HX]].
    + right. unfold fkey. rewrite FloatAxioms.div_spec, HX, Hm. reflexivity.
    + right. unfold fkey. rewrite FloatAxioms.div_spec, HX, Hm. reflexivity.
    + left. apply is_nan_key. unfold fkey.
      rewrite FloatAxioms.div_spec, HX, Hm. reflexivity.
  - left. apply div_nan_l, is_nan_key, Hx.
Qed.

(** A positive finite number divided by itself is 1. *)
Lemma div_eucl_mul (b q : Z) : (0 < b)%Z -> Z.div_eucl (b * q) b = (q, 0%Z).
Proof.
  intros Hb. pose proof (Z_div_mod (b * q) b ltac:(lia)) as Hdiv.
  destruct (Z.div_eucl (b * q) b) as [q' r]. destruct Hdiv as [Heq Hr].
  assert (q' = q) by nia. subst q'. f_equal. lia.
Qed.

Lemma SFdiv_self m e :
  SF64div (S754_finite false m e) (S754_finite false m e)
  = S754_finite false 4503599627370496 (-52).
Proof.
  unfold SF64div, SFdiv, SFdiv_core_binary. cbn [xorb Zdigits2].
  rewrite !Z.sub_diag.
  change (Z.min (fexp prec emax 0) 0) with (-53)%Z.
  change (0 - -53)%Z with 53%Z. cbv iota.
  rewrite Z.shiftl_mul_pow2 by lia.
  change (2 ^ 53)%Z with 9007199254740992%Z.
  rewrite div_eucl_mul by lia.
  replace (new_location (Z.pos m) 0) with loc_Exact
    by (unfold new_location; destruct (Z.even (Z.pos m)); reflexivity).
  reflexivity.
Qed.

Lemma div_self x : positive_finite x -> x / x = 1.
Proof.
  intros [(z & a & Hz & Ha & Hza)%ltb_key (a' & i & Ha' & Hi & Hai)%ltb_key].
  rewrite fkey_zero in Hz. injection Hz as <-.
  rewrite fkey_infinity in Hi. injection Hi as <-.
  rewrite Ha in Ha'. injection Ha' as <-.
  destruct (SFkey_positive_finite _ a (Prim2SF_valid x) Ha ltac:(lia))
    as (m & e & HX).
  apply Prim2SF_inj. rewrite FloatAxioms.div_spec, HX, SFdiv_self.
  reflexivity.
Qed.

End FloatExtras.

(** ** More on normalisation *)

Section NormaliseExtras.
Local Open Scope float_scope.
Implicit Types (x y : float) (row : list float)
  (a : ndarray) (st : gmap positive ndarray).

Lemma in_unit_zero : in_unit 0.
Proof. split; reflexivity. Qed.

(** Whatever the divisor taken from the row, the repaired quotient is in
    the range. *)
Lemma normalise_item_range (m : float) x :
  negative x = false ->
  (is_nan x = false -> (x <=? m) = true) ->
  in_unit (normalise_item m x) /\ is_nan (normalise_item m x) = false.
Proof.
  intros Hneg Hub. unfold normalise_item.
  destruct (is_nan x) eqn:Hx.
  { rewrite (div_nan_l x m Hx). split; [apply in_unit_zero|reflexivity]. }
  specialize (Hub eq_refl). pose proof Hub as Hle.
  apply leb_key in Hub as (p & q & Hp & Hq & Hpq).
  pose proof (negative_key x p Hp Hneg) as Hp0.
  pose proof (SFkey_range _ q (Prim2SF_valid m) Hq) as Hqr.
  destruct (Z.eq_dec q 0%Z) as [->|Hq0].
  { assert (p = 0%Z) by lia. subst p.
    rewrite (div_zero_zero x m).
    - split; [apply in_unit_zero|reflexivity].
    - apply eqb_key. exists 0%Z. rewrite fkey_zero. auto.
    - apply eqb_key. exists 0%Z. rewrite fkey_zero. auto. }
  destruct (Z.eq_dec q 18446744073709551616%Z) as [->|Hqi].
  { destruct (div_infinity x m Hneg Hq) as [Hnan|Hzero].
    - rewrite Hnan. split; [apply in_unit_zero|reflexivity].
    - assert (Hdef : is_nan (x / m) = false)
        by (apply is_nan_false_key; eauto).
      rewrite Hdef.
      assert (Hnn : negative (x / m) = false).
      { apply not_true_iff_false. intros (r & z & Hr & Hz & Hlt)%ltb_key.
        rewrite fkey_zero in Hz. injection Hz as <-.
        rewrite Hzero in Hr. injection Hr as <-. lia. }
      rewrite Hnn. split; [|assumption].
      apply (key_in_unit _ 0%Z Hzero). lia. }
  assert (Hpos : (0 <? m) = true).
  { apply ltb_key. exists 0%Z, q. rewrite fkey_zero. repeat split; [assumption|lia]. }
  assert (Hfin : (m <? infinity) = true).
  { apply ltb_key. exists q, 18446744073709551616%Z. rewrite fkey_infinity.
    repeat split; [assumption|lia]. }
  destruct (div_unit x m Hx Hneg Hle Hpos Hfin) as (Hdef & Hnn & Hlo & Hhi).
  rewrite Hdef. unfold negative. rewrite Hnn. split; [split|]; assumption.
Qed.

Lemma normalise_row_range a row :
  no_negative a -> row ∈ rows a ->
  Forall (fun y => in_unit y /\ is_nan y = false) (normalise_row row).
Proof.
  intros Ha Hrow. unfold normalise_row. apply Forall_map, Forall_forall.
  intros x Hx. cbn. apply normalise_item_range.
  - eapply no_negative_item; eassumption.
  - intros Hdef. now apply reduce_fmax_upper.
Qed.

(** X7: on every array without negative item and with a column,
    [patient_normalise] returns an array all of whose items lie in the
    closed range from 0 to 1 and none of which is NaN, whatever the rows
    hold: NaN items, rows of zeros, infinite items. *)
Theorem patient_normalise_range st l a :
  st !! l = Some a -> no_negative a -> 0 < ncols a ->
  exists r b,
    patient_normalise (PyArray l) st = (Ok r, <[r := b]> st) /\
    Forall (Forall (fun y => in_unit y /\ is_nan y = false)) (rows b).
Proof.
  intros Hl Hneg Hcols. eexists _, _. split.
  - apply (patient_normalise_run st l a Hl Hneg). lia.
  - cbn. apply Forall_map, Forall_forall. intros row Hrow. cbn.
    now apply (normalise_row_range a).
Qed.

(** X8: in a row whose maximum is positive and finite, the item that is
    the maximum becomes exactly 1: the normalised row reaches the top of
    its range. *)
Theorem patient_normalise_reaches_one st l a :
  st !! l = Some a -> no_negative a -> 0 < ncols a ->
  exists r b,
    patient_normalise (PyArray l) st = (Ok r, <[r := b]> st) /\
    forall i row (m : float),
      rows a !! i = Some row -> row_maximum row m -> positive_finite m ->
      exists row' j,
        rows b !! i = Some row' /\
        row !! j = Some (reduce_items fmax row) /\ row' !! j = Some 1.
Proof.
  intros Hl Hneg Hcols. eexists _, _. split.
  - apply (patient_normalise_run st l a Hl Hneg). lia.
  - intros i row m Hrow Hmax Hm. cbn. rewrite list_lookup_fmap, Hrow. cbn.
    pose proof (reduce_fmax_positive_finite row m Hmax Hm) as Hred.
    assert (Hne : row <> []).
    { destruct Hmax as [Hin _]. intros ->. now apply not_elem_of_nil in Hin. }
    destruct (proj1 (list_elem_of_lookup _ _) (reduce_fmax_elem row Hne))
      as [j Hj].
    exists (normalise_row row), j. split; [reflexivity|].
    split; [exact Hj|]. unfold normalise_row.
    rewrite list_lookup_fmap, Hj. cbn. f_equal.
    unfold normalise_item. rewrite (div_self _ Hred). reflexivity.
Qed.

(** X9: an infinite item zeroes its row: every item of the normalised row
    compares equal to 0. *)
Theorem patient_normalise_infinite_row st l a :
  st !! l = Some a -> no_negative a -> 0 < ncols a ->
  exists r b,
    patient_normalise (PyArray l) st = (Ok r, <[r := b]> st) /\
    forall i row,
      rows a !! i = Some row -> infinity ∈ row ->
      exists row',
        rows b !! i = Some row' /\ length row' = length row /\
        Forall (fun y => PrimFloat.is_zero y = true) row'.
Proof.
  intros Hl Hneg Hcols. eexists _, _. split.
  - apply (patient_normalise_run st l a Hl Hneg). lia.
  - intros i row Hrow Hinf. cbn. rewrite list_lookup_fmap, Hrow. cbn.
    exists (normalise_row row). split; [reflexivity|].
    unfold normalise_row. split; [now rewrite length_map|].
    assert (Hm : fkey (reduce_items fmax row) = Some 18446744073709551616%Z).
    { pose proof (reduce_fmax_upper row infinity Hinf eq_refl) as Hle.
      apply leb_key in Hle as (p & q & Hp & Hq & Hpq).
      rewrite fkey_infinity in Hp. injection Hp as <-.
      pose proof (SFkey_range _ q (Prim2SF_valid _) Hq).
      rewrite Hq. f_equal. lia. }
    apply Forall_map, Forall_forall. intros x Hx. cbn.
    assert (Hx0 : negative x = false).
    { eapply no_negative_item; [exact Hneg| |exact Hx].
      eapply list_elem_of_lookup_2, Hrow. }
    unfold normalise_item.
    destruct (div_infinity x _ Hx0 Hm) as [Hnan|Hzero].
    + rewrite Hnan. reflexivity.
    + assert (Hdef : is_nan (x / reduce_items fmax row) = false)
        by (apply is_nan_false_key; eauto).
      rewrite Hdef.
      assert (Hnn : negative (x / reduce_items fmax row) = false).
      { apply not_true_iff_false. intros (r & z & Hr & Hz & Hlt)%ltb_key.
        rewrite fkey_zero in Hz. injection Hz as <-.
        rewrite Hzero in Hr. injection Hr as <-. lia. }
      rewrite Hnn. unfold PrimFloat.is_zero. apply eqb_key.
      exists 0%Z. split; [assumption|reflexivity].
Qed.


(** With a positive finite divisor the repairs change only the NaN
    items. *)
Lemma normalise_item_quotient (m : float) x :
  positive_finite m ->
  negative x = false ->
  (is_nan x = false -> (x <=? m) = true) ->
  normalise_item m x = if is_nan x then 0 else x / m.
Proof.
  intros [Hpos Hfin] Hneg Hub. unfold normalise_item.
  destruct (is_nan x) eqn:Hx.
  - now rewrite (div_nan_l x m Hx).
  - destruct (div_unit x m Hx Hneg (Hub eq_refl) Hpos Hfin)
      as (Hdef & Hnn & _).
    rewrite Hdef. unfold negative. now rewrite Hnn.
Qed.

(** X21: in a row whose maximum is positive and finite, the divisor
    compares equal to that maximum, every number of the row becomes its
    quotient by the divisor, unchanged by the repairs, and every NaN
    becomes 0. *)
Theorem patient_normalise_quotients st l a :
  st !! l = Some a -> no_negative a -> 0 < ncols a ->
  exists r b,
    patient_normalise (PyArray l) st = (Ok r, <[r := b]> st) /\
    forall i row (m : float),
      rows a !! i = Some row -> row_maximum row m -> positive_finite m ->
      (reduce_items fmax row =? m) = true /\
      exists row',
        rows b !! i = Some row' /\
        forall j x,
          row !! j = Some x ->
          row' !! j = Some (if is_nan x then 0
                            else x / reduce_items fmax row).
Proof.
  intros Hl Hneg Hcols. eexists _, _. split.
  - apply (patient_normalise_run st l a Hl Hneg). lia.
  - intros i row m Hrow Hmax Hm. cbn. rewrite list_lookup_fmap, Hrow. cbn.
    pose proof (reduce_fmax_positive_finite row m Hmax Hm) as Hred.
    split.
    + destruct Hmax as (Hin & Hdef & Hub).
      assert (Hne : row <> [])
        by (intros ->; now apply not_elem_of_nil in Hin).
      pose proof (reduce_fmax_upper row m Hin Hdef) as Hle.
      pose proof (Hub _ (reduce_fmax_elem row Hne)
                    (proj2 (float_leb_defined _ _ Hle))) as Hge.
      apply leb_key in Hle as (p & q & Hp & Hq & Hpq).
      apply leb_key in Hge as (q' & p' & Hq' & Hp' & Hqp).
      rewrite Hq in Hq'. injection Hq' as <-.
      rewrite Hp in Hp'. injection Hp' as <-.
      apply eqb_key. exists p. split; [|assumption].
      rewrite Hq. f_equal. lia.
    + exists (normalise_row row). split; [reflexivity|].
      intros j x Hj. unfold normalise_row.
      rewrite list_lookup_fmap, Hj. cbn. f_equal.
      apply normalise_item_quotient; [exact Hred| |].
      * eapply no_negative_item; [exact Hneg| |].
        -- eapply list_elem_of_lookup_2, Hrow.
        -- eapply list_elem_of_lookup_2, Hj.
      * intros Hdef. apply reduce_fmax_upper; [|assumption].
        eapply list_elem_of_lookup_2, Hj.
Qed.

End NormaliseExtras.

(** ** The daily statistics, column by column *)

Section StatsExtras.
Local Open Scope float_scope.
Implicit Types (x y v t : float) (row xs : list float) (a : ndarray).

Lemma fold_zip_length (f : float -> float -> float) (rs : list (list float)) :
  forall r, Forall (fun r' => length r' = length r) rs ->
            length (fold_left (zip_with f) rs r) = length r.
Proof.
  induction rs as [|r1 rs IH]; intros r Hlen; cbn; [reflexivity|].
  apply Forall_cons in Hlen as [H1 Hrs].
  assert (Hz : length (zip_with f r r1) = length r)
    by (apply length_zip_with_l_eq; congruence).
  rewrite IH; [exact Hz|].
  eapply Forall_impl; [exact Hrs|]. cbn. intros r' Hr'. congruence.
Qed.

(** A reduction along axis 0 reduces each column. *)
Lemma fold_zip_column (f : float -> float -> float) (j : nat)
    (rs : list (list float)) :
  forall r x,
    r !! j = Some x ->
    Forall (fun r' => length r' = length r) rs ->
    fold_left (zip_with f) rs r !! j
    = Some (fold_left f (omap (fun r' => r' !! j) rs) x).
Proof.
  induction rs as [|r1 rs IH]; intros r x Hx Hlen; cbn; [exact Hx|].
  apply Forall_cons in Hlen as [H1 Hrs].
  assert (Hj : j < length r) by (apply lookup_lt_is_Some; eauto).
  destruct (lookup_lt_is_Some_2 r1 j ltac:(lia)) as [y Hy].
  rewrite Hy. cbn. apply IH.
  - rewrite lookup_zip_with, Hx, Hy. reflexivity.
  - assert (Hz : length (zip_with f r r1) = length r)
      by (apply length_zip_with_l_eq; congruence).
    eapply Forall_impl; [exact Hrs|]. cbn. intros r' Hr'. congruence.
Qed.

Lemma rectangular_rows a r rs :
  rectangular a -> rows a = r :: rs ->
  length r = ncols a /\ Forall (fun r' => length r' = length r) rs.
Proof.
  unfold rectangular. intros Hrect Hrows. rewrite Hrows in Hrect.
  apply Forall_cons in Hrect as [Hr Hrs]. split; [exact Hr|].
  eapply Forall_impl; [exact Hrs|]. cbn. intros r' Hr'. congruence.
Qed.

(** The column [j] of an array with rows, and what the reductions along
    axis 0 give there. *)
Lemma reduce_axis0_column a j :
  rectangular a -> j < ncols a -> rows a <> [] ->
  exists x xs,
    column j a = x :: xs /\
    (forall f, reduce_axis0 f a !! j = Some (fold_left f xs x)) /\
    np_sum_axis0 a !! j = Some (fold_left PrimFloat.add xs x).
Proof.
  intros Hrect Hj Hne. unfold column, reduce_axis0, np_sum_axis0.
  destruct (rows a) as [|r rs] eqn:Hrows; [contradiction|].
  destruct (rectangular_rows a r rs Hrect Hrows) as [Hr Hrs].
  destruct (lookup_lt_is_Some_2 r j ltac:(lia)) as [x Hx].
  exists x, (omap (fun r' => r' !! j) rs). cbn. rewrite Hx.
  split; [reflexivity|]. split.
  - intros f. now apply fold_zip_column.
  - now apply fold_zip_column.
Qed.

Lemma np_sum_length a : rectangular a -> length (np_sum_axis0 a) = ncols a.
Proof.
  intros Hrect. unfold np_sum_axis0.
  destruct (rows a) as [|r rs] eqn:Hrows; [apply length_replicate|].
  destruct (rectangular_rows a r rs Hrect Hrows) as [Hr Hrs].
  now rewrite fold_zip_length.
Qed.

Lemma reduce_axis0_length (f : float -> float -> float) a :
  rectangular a -> rows a <> [] -> length (reduce_axis0 f a) = ncols a.
Proof.
  intros Hrect Hne. unfold reduce_axis0.
  destruct (rows a) as [|r rs] eqn:Hrows; [contradiction|].
  destruct (rectangular_rows a r rs Hrect Hrows) as [Hr Hrs].
  now rewrite fold_zip_length.
Qed.

(** The squared deviations form an array of the same shape. *)
Lemma deviations_rectangular a (arrmean : list float) :
  rectangular a -> length arrmean = ncols a ->
  rectangular
    (NdArray (ncols a)
       (map (map (fun v => v * v))
            (map (fun r => zip_with PrimFloat.sub r arrmean) (rows a)))).
Proof.
  intros Hrect Hlen. unfold rectangular in *. cbn.
  rewrite map_map. apply Forall_map.
  eapply Forall_impl; [exact Hrect|]. cbn. intros r Hr.
  rewrite length_map, length_zip_with_l_eq; congruence.
Qed.

(** X11: each statistic has one item per column: the daily mean and the
    daily standard deviation of every rectangular array, also of one
    without rows, and the daily maximum and minimum of one with rows. *)
Theorem daily_statistics_length a :
  rectangular a ->
  length (daily_mean a) = ncols a /\
  length (daily_std a) = ncols a /\
  (rows a <> [] ->
   exists mx mn,
     daily_max a = Ok mx /\ daily_min a = Ok mn /\
     length mx = ncols a /\ length mn = ncols a).
Proof.
  intros Hrect. split; [|split].
  - unfold daily_mean, np_mean_axis0. rewrite length_map.
    now apply np_sum_length.
  - unfold daily_std, np_std_axis0, np_var_axis0, sum_squared_deviations.
    rewrite !length_map.
    rewrite (np_sum_length _ (deviations_rectangular a _ Hrect
               ltac:(rewrite length_map; now apply np_sum_length))).
    reflexivity.
  - intros Hne. unfold daily_max, daily_min, np_max_axis0, np_min_axis0, nrows.
    destruct (rows a) as [|r rs] eqn:Hrows; [contradiction|]. cbn [length Nat.eqb].
    eexists _, _. split; [reflexivity|]. split; [reflexivity|].
    split; apply reduce_axis0_length; try assumption; rewrite Hrows; discriminate.
Qed.

(** X12: on an array without rows the daily maximum and minimum raise
    [ValueError], while the daily mean and standard deviation return NaN
    for every column. *)
Theorem daily_statistics_no_rows a :
  rows a = [] ->
  daily_max a = Raise (zero_size "maximum") /\
  daily_min a = Raise (zero_size "minimum") /\
  daily_mean a = replicate (ncols a) nan /\
  daily_std a = replicate (ncols a) nan.
Proof.
  intros Hrows.
  unfold daily_max, daily_min, daily_mean, daily_std, np_max_axis0,
    np_min_axis0, np_mean_axis0, np_std_axis0, np_var_axis0,
    sum_squared_deviations, np_sum_axis0, nrows.
  rewrite Hrows. cbn [length Nat.eqb map rows ncols Nat.sub].
  repeat split; try reflexivity.
  - change (map ?f (replicate ?n ?x)) with (f <$> replicate n x).
    now rewrite fmap_replicate.
  - change (map ?f (map ?g (replicate ?n ?x)))
      with (f <$> (g <$> replicate n x)).
    now rewrite !fmap_replicate.
Qed.

(** [maximum] and [minimum] give NaN as soon as an argument is NaN. *)
Lemma maximum_nan x y :
  is_nan x = true \/ is_nan y = true -> is_nan (maximum x y) = true.
Proof.
  unfold maximum. intros [Hx|Hy].
  - now rewrite Hx, orb_true_r.
  - destruct (is_nan x) eqn:Hx; [now rewrite orb_true_r|].
    now rewrite (leb_nan_l y x Hy).
Qed.

Lemma minimum_nan x y :
  is_nan x = true \/ is_nan y = true -> is_nan (minimum x y) = true.
Proof.
  unfold minimum. intros [Hx|Hy].
  - now rewrite Hx, orb_true_r.
  - destruct (is_nan x) eqn:Hx; [now rewrite orb_true_r|].
    now rewrite (leb_nan_r x y Hy).
Qed.

(** A reduction with an operation that keeps NaN gives NaN on a list that
    holds a NaN. *)
Lemma fold_nan (f : float -> float -> float) :
  (forall x y, is_nan x = true \/ is_nan y = true -> is_nan (f x y) = true) ->
  forall xs x,
    Exists (fun y => is_nan y = true) (x :: xs) ->
    is_nan (fold_left f xs x) = true.
Proof.
  intros Hf. induction xs as [|y ys IH]; intros x Hex; cbn.
  - apply Exists_cons in Hex as [Hx|Hex]; [exact Hx|].
    now apply Exists_nil in Hex.
  - apply IH. apply Exists_cons in Hex as [Hx|Hex].
    + left. apply Hf. now left.
    + apply Exists_cons in Hex as [Hy|Hex]; [|now right].
      left. apply Hf. now right.
Qed.

Lemma fold_maximum xs :
  forall x,
    Forall (fun y => is_nan y = false) (x :: xs) ->
    fold_left maximum xs x ∈ x :: xs /\
    forall y, y ∈ x :: xs -> (y <=? fold_left maximum xs x) = true.
Proof.
  induction xs as [|z zs IH]; intros x Hdef; cbn [fold_left].
  - apply Forall_cons in Hdef as [Hx _]. split; [now left|].
    intros y ->%list_elem_of_singleton. now apply float_leb_refl.
  - apply Forall_cons in Hdef as [Hx Hdef].
    apply Forall_cons in Hdef as [Hz Hzs].
    assert (Hm : (maximum x z = x /\ (z <=? x) = true) \/
                 (maximum x z = z /\ (x <=? z) = true)).
    { unfold maximum. rewrite Hx, orb_false_r.
      destruct (z <=? x) eqn:Hle; [now left|right].
      split; [reflexivity|now apply float_leb_total]. }
    assert (Hmd : is_nan (maximum x z) = false)
      by (destruct Hm as [[-> _]|[-> _]]; assumption).
    destruct (IH (maximum x z) ltac:(now constructor)) as [Hin Hub]. split.
    + apply elem_of_cons in Hin as [Hin|Hin]; [|do 2 right; exact Hin].
      rewrite Hin. destruct Hm as [[-> _]|[-> _]]; [now left|right; now left].
    + intros y Hy.
      assert (Htop : (maximum x z <=? fold_left maximum zs (maximum x z)) = true)
        by (apply Hub; now left).
      apply elem_of_cons in Hy as [->|Hy].
      { eapply float_leb_trans; [|exact Htop].
        destruct Hm as [[-> _]|[-> Hle]];
          [now apply float_leb_refl|exact Hle]. }
      apply elem_of_cons in Hy as [->|Hy]; [|apply Hub; now right].
      eapply float_leb_trans; [|exact Htop].
      destruct Hm as [[-> Hle]|[-> _]]; [exact Hle|now apply float_leb_refl].
Qed.

Lemma fold_minimum xs :
  forall x,
    Forall (fun y => is_nan y = false) (x :: xs) ->
    fold_left minimum xs x ∈ x :: xs /\
    forall y, y ∈ x :: xs -> (fold_left minimum xs x <=? y) = true.
Proof.
  induction xs as [|z zs IH]; intros x Hdef; cbn [fold_left].
  - apply Forall_cons in Hdef as [Hx _]. split; [now left|].
    intros y ->%list_elem_of_singleton. now apply float_leb_refl.
  - apply Forall_cons in Hdef as [Hx Hdef].
    apply Forall_cons in Hdef as [Hz Hzs].
    assert (Hm : (minimum x z = x /\ (x <=? z) = true) \/
                 (minimum x z = z /\ (z <=? x) = true)).
    { unfold minimum. rewrite Hx, orb_false_r.
      destruct (x <=? z) eqn:Hle; [now left|right].
      split; [reflexivity|now apply float_leb_total]. }
    assert (Hmd : is_nan (minimum x z) = false)
      by (destruct Hm as [[-> _]|[-> _]]; assumption).
    destruct (IH (minimum x z) ltac:(now constructor)) as [Hin Hlb]. split.
    + apply elem_of_cons in Hin as [Hin|Hin]; [|do 2 right; exact Hin].
      rewrite Hin. destruct Hm as [[-> _]|[-> _]]; [now left|right; now left].
    + intros y Hy.
      assert (Hbot : (fold_left minimum zs (minimum x z) <=? minimum x z) = true)
        by (apply Hlb; now left).
      apply elem_of_cons in Hy as [->|Hy].
      { eapply float_leb_trans; [exact Hbot|].
        destruct Hm as [[-> _]|[-> Hle]];
          [now apply float_leb_refl|exact Hle]. }
      apply elem_of_cons in Hy as [->|Hy]; [|apply Hlb; now right].
      eapply float_leb_trans; [exact Hbot|].
      destruct Hm as [[-> Hle]|[-> _]]; [exact Hle|now apply float_leb_refl].
Qed.

(** X13: the daily maximum of a column that holds a NaN is NaN; of a
    column of numbers it is an item of the column that no item exceeds. *)
Theorem daily_max_column a j :
  rectangular a -> j < ncols a -> rows a <> [] ->
  exists mx v,
    daily_max a = Ok mx /\ mx !! j = Some v /\
    (Exists (fun y => is_nan y = true) (column j a) -> is_nan v = true) /\
    (Forall (fun y => is_nan y = false) (column j a) ->
     v ∈ column j a /\ forall y, y ∈ column j a -> (y <=? v) = true).
Proof.
  intros Hrect Hj Hne.
  destruct (reduce_axis0_column a j Hrect Hj Hne) as (x & xs & Hcol & Hred & _).
  unfold daily_max, np_max_axis0, nrows.
  destruct (rows a) as [|r rs] eqn:Hrows; [contradiction|]. cbn [length Nat.eqb].
  eexists _, _. split; [reflexivity|]. split; [apply Hred|].
  rewrite Hcol. split.
  - apply fold_nan, maximum_nan.
  - apply fold_maximum.
Qed.

(** X14: the daily minimum of a column that holds a NaN is NaN; of a
    column of numbers it is an item of the column that exceeds no item. *)
Theorem daily_min_column a j :
  rectangular a -> j < ncols a -> rows a <> [] ->
  exists mn v,
    daily_min a = Ok mn /\ mn !! j = Some v /\
    (Exists (fun y => is_nan y = true) (column j a) -> is_nan v = true) /\
    (Forall (fun y => is_nan y = false) (column j a) ->
     v ∈ column j a /\ forall y, y ∈ column j a -> (v <=? y) = true).
Proof.
  intros Hrect Hj Hne.
  destruct (reduce_axis0_column a j Hrect Hj Hne) as (x & xs & Hcol & Hred & _).
  unfold daily_min, np_min_axis0, nrows.
  destruct (rows a) as [|r rs] eqn:Hrows; [contradiction|]. cbn [length Nat.eqb].
  eexists _, _. split; [reflexivity|]. split; [apply Hred|].
  rewrite Hcol. split.
  - apply fold_nan, minimum_nan.
  - apply fold_minimum.
Qed.

(** X15: in a column of numbers the daily minimum does not exceed the
    daily maximum. *)
Theorem daily_min_le_max a j :
  rectangular a -> j < ncols a -> rows a <> [] ->
  Forall (fun y => is_nan y = false) (column j a) ->
  exists mn mx lo hi,
    daily_min a = Ok mn /\ daily_max a = Ok mx /\
    mn !! j = Some lo /\ mx !! j = Some hi /\ (lo <=? hi) = true.
Proof.
  intros Hrect Hj Hne Hdef.
  destruct (reduce_axis0_column a j Hrect Hj Hne) as (x & xs & Hcol & Hred & _).
  rewrite Hcol in Hdef.
  unfold daily_min, daily_max, np_min_axis0, np_max_axis0, nrows.
  destruct (rows a) as [|r rs] eqn:Hrows; [contradiction|]. cbn [length Nat.eqb].
  eexists _, _, _, _. split; [reflexivity|]. split; [reflexivity|].
  split; [apply Hred|]. split; [apply Hred|].
  destruct (fold_minimum xs x Hdef) as [Hin _].
  destruct (fold_maximum xs x Hdef) as [_ Hub]. now apply Hub.
Qed.

(** The column [j] of the squared deviations. *)
Lemma deviations_column (rs : list (list float)) (arrmean : list float)
    (j : nat) (m : float) :
  arrmean !! j = Some m ->
  omap (fun r' : list float => r' !! j)
       (map (map (fun v => v * v))
            (map (fun r => zip_with PrimFloat.sub r arrmean) rs))
  = map (fun y => (y - m) * (y - m)) (omap (fun r' : list float => r' !! j) rs).
Proof.
  intros Hm. induction rs as [|r rs IH]; cbn; [reflexivity|].
  rewrite list_lookup_fmap, lookup_zip_with, Hm.
  destruct (r !! j) as [y|]; cbn; now rewrite IH.
Qed.

(** X16: a NaN in a column makes the daily mean and the daily standard
    deviation of that column NaN: the statistics do not skip NaN items. *)
Theorem daily_mean_std_nan a j :
  rectangular a -> j < ncols a ->
  Exists (fun y => is_nan y = true) (column j a) ->
  exists m s,
    daily_mean a !! j = Some m /\ is_nan m = true /\
    daily_std a !! j = Some s /\ is_nan s = true.
Proof.
  intros Hrect Hj Hex.
  assert (Hne : rows a <> []).
  { intros Hrows. unfold column in Hex. rewrite Hrows in Hex.
    now apply Exists_nil in Hex. }
  destruct (reduce_axis0_column a j Hrect Hj Hne) as (x & xs & Hcol & _ & Hsum).
  rewrite Hcol in Hex.
  assert (Hnan : is_nan (fold_left PrimFloat.add xs x) = true)
    by (apply (fold_nan PrimFloat.add add_nan); exact Hex).
  set (m := fold_left PrimFloat.add xs x / of_count (nrows a)).
  assert (Hm : is_nan m = true) by now apply div_nan_l.
  assert (Hmean : np_mean_axis0 a !! j = Some m).
  { unfold np_mean_axis0.
    change (map ?f ?l) with (f <$> l). now rewrite list_lookup_fmap, Hsum. }
  set (dev := NdArray (ncols a)
                (map (map (fun v => v * v))
                     (map (fun r => zip_with PrimFloat.sub r (np_mean_axis0 a))
                          (rows a)))).
  assert (Hstd : daily_std a =
                 PrimFloat.sqrt <$>
                   ((fun s => s / of_count (nrows a - 0)) <$> np_sum_axis0 dev))
    by reflexivity.
  assert (Hrd : rectangular dev).
  { apply deviations_rectangular; [assumption|].
    unfold np_mean_axis0. rewrite length_map. now apply np_sum_length. }
  assert (Hnd : rows dev <> []).
  { unfold dev. cbn. destruct (rows a); [contradiction|discriminate]. }
  destruct (reduce_axis0_column dev j Hrd Hj Hnd)
    as (d & ds & Hdcol & _ & Hdsum).
  assert (Hdnan : Forall (fun y => is_nan y = true) (d :: ds)).
  { rewrite <- Hdcol. unfold column, dev. cbn [rows].
    rewrite (deviations_column _ _ j m Hmean).
    apply Forall_map, Forall_forall. intros y _. cbn.
    apply mul_nan. left. apply sub_nan. now right. }
  assert (Hds : is_nan (fold_left PrimFloat.add ds d) = true).
  { apply (fold_nan PrimFloat.add add_nan). left.
    now apply Forall_cons in Hdnan as [Hd _]. }
  exists m, (PrimFloat.sqrt (fold_left PrimFloat.add ds d
                             / of_count (nrows a - 0))).
  split; [exact Hmean|]. split; [exact Hm|]. split.
  - rewrite Hstd, !list_lookup_fmap, Hdsum. reflexivity.
  - apply sqrt_nan. now apply div_nan_l.
Qed.

End StatsExtras.

(** ** Thresholds and indices *)

Section ThresholdExtras.
Local Open Scope float_scope.
Implicit Types (x t : float) (row : list float) (a : ndarray).



Lemma np_getitem_negative a i :
  (0 <= i < Z.of_nat (nrows a))%Z ->
  np_getitem a (i - Z.of_nat (nrows a)) = np_getitem a i.
Proof.
  intros Hi. unfold np_getitem.
  destruct (Z.ltb_spec (i - Z.of_nat (nrows a)) 0); [|lia].
  destruct (Z.ltb_spec i 0); [lia|].
  now replace (i - Z.of_nat (nrows a) + Z.of_nat (nrows a))%Z with i by lia.
Qed.

(** X18: a negative index counts the rows from the end: index [i - n]
    gives the result of index [i]. *)
Theorem daily_above_threshold_negative_index a i t :
  (0 <= i < Z.of_nat (nrows a))%Z ->
  daily_above_threshold a (i - Z.of_nat (nrows a)) t
  = daily_above_threshold a i t.
Proof.
  intros Hi. unfold daily_above_threshold. now rewrite np_getitem_negative.
Qed.

Lemma filter_length_mono (P Q : float -> Prop)
    `{forall x, Decision (P x)} `{forall x, Decision (Q x)} (l : list float) :
  (forall x, P x -> Q x) -> length (filter P l) <= length (filter Q l).
Proof.
  intros HPQ. induction l as [|x l IH]; [reflexivity|].
  rewrite !filter_cons.
  destruct (decide (P x)) as [HP|HP], (decide (Q x)) as [HQ|HQ]; cbn; try lia.
  exfalso. auto.
Qed.

(** X19: the count is between 0 and the number of columns, and raising
    the threshold never raises it. *)
Theorem daily_above_threshold_monotone a i (t1 t2 : float) row :
  np_getitem a i = Ok row -> row <> [] ->
  (t1 <=? t2) = true ->
  exists c1 c2,
    daily_above_threshold a i t1 = Ok c1 /\
    daily_above_threshold a i t2 = Ok c2 /\
    (0 <= c2 <= c1)%Z /\ (c1 <= Z.of_nat (length row))%Z.
Proof.
  intros Hrow Hne Hle. exists (count_above t1 row), (count_above t2 row).
  split; [now apply daily_above_threshold_row|].
  split; [now apply daily_above_threshold_row|].
  unfold count_above.
  pose proof (filter_length_mono (fun x => (t2 <? x) = true)
                (fun x => (t1 <? x) = true) row
                (fun x Hx => float_leb_ltb_trans t1 t2 x Hle Hx)).
  pose proof (length_filter (fun x => (t1 <? x) = true) row). lia.
Qed.

Lemma count_above_none t row :
  (forall x, x ∈ row -> (t <? x) = false) -> count_above t row = 0%Z.
Proof.
  intros Hnone. unfold count_above.
  induction row as [|x row IH]; [reflexivity|].
  rewrite filter_cons. rewrite decide_False.
  - apply IH. intros y Hy. apply Hnone. now right.
  - rewrite Hnone by now left. discriminate.
Qed.

(** X20: NaN is above nothing and nothing is above NaN: with a NaN
    threshold, or on a row of NaN items, the count is 0. *)
Theorem daily_above_threshold_nan a i t row :
  np_getitem a i = Ok row -> row <> [] ->
  is_nan t = true \/ Forall (fun x => is_nan x = true) row ->
  daily_above_threshold a i t = Ok 0%Z.
Proof.
  intros Hrow Hne Hnan.
  rewrite (daily_above_threshold_row a i t row Hrow Hne). f_equal.
  apply count_above_none. intros x Hx. destruct Hnan as [Ht|Hall].
  - now apply ltb_nan_l.
  - apply ltb_nan_r. rewrite Forall_forall in Hall. now apply Hall.
Qed.

End ThresholdExtras.

(** ** Instances of the further properties *)

(** Doctor Who at location 1 and Bob at location 2. *)
Lemma sample_world :
  let w := exec (CallPatient "Bob") (exec (CallDoctor "Who") (@empty_world Z)) in
  heap w !! 1%positive
  = Some (ODoctor {| doctor_name := "Who"; patients := [] |}) /\
  heap w !! 2%positive
  = Some (OPatient {| patient_name := "Bob"; observations := [] |}).
Proof. split; vm_compute; reflexivity. Qed.

Lemma add_observation_explicit_then_default_witness :
  let w := exec (CallPatient "Bob") (exec (CallDoctor "Who") (@empty_world Z)) in
  exists o1 w1 o2 w2,
    add_observation 2%positive 5%Z (Some (-3)%Z) w = (Ok o1, w1) /\
    add_observation 2%positive 6%Z None w1 = (Ok o2, w2) /\
    day o1 = (-3)%Z /\ day o2 = (-3 + 1)%Z.
Proof.
  intros w.
  destruct (add_observation_explicit_then_default w 2%positive _ 5%Z 6%Z
              (-3)%Z (proj2 sample_world))
    as (o1 & w1 & o2 & w2 & H1 & H2 & Hd1 & Hd2 & _).
  exists o1, w1, o2, w2. repeat split; assumption.
Defined.

Lemma add_observation_counts_days_witness :
  exists o w',
    add_observation 1%positive 9%Z None
      (World {[ 1%positive :=
                  OPatient {| patient_name := "Alice";
                              observations := [ {| day := 0; value := 3%Z |};
                                                {| day := 1; value := 4%Z |} ] |} ]}
             []) = (Ok o, w') /\
    day o = 2%Z.
Proof.
  destruct (add_observation_counts_days
              (World {[ 1%positive :=
                  OPatient {| patient_name := "Alice";
                              observations := [ {| day := 0; value := 3%Z |};
                                                {| day := 1; value := 4%Z |} ] |} ]}
                     [])
              1%positive _ 9%Z (lookup_singleton_eq _ _) eq_refl)
    as (o & w' & p' & Hrun & Hd & _).
  exists o, w'. split; [exact Hrun|exact Hd].
Defined.

Lemma add_patient_same_name_twice_witness :
  let w := exec (CallPatient "Bob") (exec (CallDoctor "Who") (@empty_world Z)) in
  exists l1 w1 l2 w2,
    add_patient 1%positive (AName "Bob") w = (Ok (Some l1), w1) /\
    add_patient 1%positive (AName "Bob") w1 = (Ok (Some l2), w2) /\
    l1 <> l2 /\ heap w !! l1 = None /\ heap w !! l2 = None.
Proof.
  intros w.
  destruct (add_patient_same_name_twice w 1%positive _ "Bob"
              (proj1 sample_world) ltac:(constructor))
    as (l1 & w1 & l2 & w2 & H1 & H2 & Hne & Hf1 & Hf2 & _).
  exists l1, w1, l2, w2. repeat split; assumption.
Defined.

Lemma exec_all_append_only_witness :
  let w := exec (CallPatient "Bob") (exec (CallDoctor "Who") (@empty_world Z)) in
  exists o',
    heap (exec_all [CallAddPatient 1%positive (APatient 2%positive);
                    CallAddObservation 2%positive 7%Z None;
                    CallAddPatient 1%positive (AName "Eve")] w) !! 1%positive
    = Some o' /\
    object_extends (ODoctor {| doctor_name := "Who"; patients := [] |}) o'.
Proof.
  intros w. apply (exec_all_append_only _ w 1%positive _ (proj1 sample_world)).
Defined.

Lemma add_patient_returns_witness :
  let w := exec (CallPatient "Bob") (exec (CallDoctor "Who") (@empty_world Z)) in
  exists r w1 doc1,
    add_patient 1%positive (APatient 2%positive) w = (Ok r, w1) /\
    heap w1 !! 1%positive = Some (ODoctor doc1) /\
    2%positive ∈ patients doc1.
Proof.
  intros w.
  destruct (add_patient_returns w 1%positive _ 2%positive _
              (proj1 sample_world) (proj2 sample_world))
    as (r & w1 & doc1 & Hrun & Hd & Hin & _).
  exists r, w1, doc1. repeat split; assumption.
Defined.

Lemma matrix_infinite_valid : no_negative matrix_infinite.
Proof. repeat constructor. Qed.

Lemma patient_normalise_range_witness :
  exists r b,
    patient_normalise (PyArray 1%positive) {[ 1%positive := matrix_mixed ]}
    = (Ok r, <[r := b]> {[ 1%positive := matrix_mixed ]}) /\
    Forall (Forall (fun y => in_unit y /\ is_nan y = false)) (rows b).
Proof.
  apply (patient_normalise_range {[ 1%positive := matrix_mixed ]} 1%positive
           matrix_mixed (lookup_singleton_eq _ _) (proj2 matrix_mixed_valid)).
  cbn. lia.
Defined.

Lemma row_124_maximum :
  row_maximum [1; 2; 4]%float 4%float /\ positive_finite 4%float.
Proof.
  split; [|split; reflexivity].
  split; [do 2 right; left|split; [reflexivity|]].
  intros x Hx Hdef.
  repeat (apply elem_of_cons in Hx as [->|Hx]; [reflexivity|]).
  now apply not_elem_of_nil in Hx.
Qed.

Lemma patient_normalise_reaches_one_witness :
  exists r b row' j,
    patient_normalise (PyArray 1%positive) {[ 1%positive := matrix_mixed ]}
    = (Ok r, <[r := b]> {[ 1%positive := matrix_mixed ]}) /\
    rows b !! 0 = Some row' /\ row' !! j = Some 1%float.
Proof.
  destruct (patient_normalise_reaches_one
              {[ 1%positive := matrix_mixed ]} 1%positive matrix_mixed
              (lookup_singleton_eq _ _) (proj2 matrix_mixed_valid)
              ltac:(cbn; lia))
    as (r & b & Hrun & Hone).
  destruct (Hone 0 [1; 2; 4]%float 4%float eq_refl
              (proj1 row_124_maximum) (proj2 row_124_maximum))
    as (row' & j & Hrow' & _ & Hj).
  exists r, b, row', j. repeat split; assumption.
Defined.

Lemma patient_normalise_infinite_row_witness :
  exists r b row',
    patient_normalise (PyArray 1%positive) {[ 1%positive := matrix_infinite ]}
    = (Ok r, <[r := b]> {[ 1%positive := matrix_infinite ]}) /\
    rows b !! 0 = Some row' /\ length row' = 3 /\
    Forall (fun y => PrimFloat.is_zero y = true) row'.
Proof.
  destruct (patient_normalise_infinite_row
              {[ 1%positive := matrix_infinite ]} 1%positive matrix_infinite
              (lookup_singleton_eq _ _) matrix_infinite_valid
              ltac:(cbn; lia))
    as (r & b & Hrun & Hrows).
  destruct (Hrows 0 [1; infinity; 0]%float eq_refl ltac:(right; left))
    as (row' & Hrow' & Hlen & Hzero).
  exists r, b, row'. repeat split; assumption.
Defined.


Lemma patient_normalise_quotients_witness :
  exists r b row',
    patient_normalise (PyArray 1%positive) {[ 1%positive := matrix_mixed ]}
    = (Ok r, <[r := b]> {[ 1%positive := matrix_mixed ]}) /\
    rows b !! 0 = Some row' /\
    row' !! 1 = Some (2 / reduce_items fmax [1; 2; 4])%float.
Proof.
  destruct (patient_normalise_quotients
              {[ 1%positive := matrix_mixed ]} 1%positive matrix_mixed
              (lookup_singleton_eq _ _) (proj2 matrix_mixed_valid)
              ltac:(cbn; lia))
    as (r & b & Hrun & Hq).
  destruct (Hq 0 [1; 2; 4]%float 4%float eq_refl
              (proj1 row_124_maximum) (proj2 row_124_maximum))
    as (_ & row' & Hrow' & Hitems).
  exists r, b, row'. split; [exact Hrun|]. split; [exact Hrow'|].
  apply (Hitems 1 2%float eq_refl).
Defined.

Lemma matrix_1234_rectangular : rectangular matrix_1234.
Proof. repeat constructor. Qed.

Lemma daily_statistics_length_witness :
  length (daily_mean matrix_1234) = 2 /\ length (daily_std matrix_1234) = 2.
Proof.
  destruct (daily_statistics_length matrix_1234 matrix_1234_rectangular)
    as (Hmean & Hstd & _).
  split; assumption.
Defined.

Lemma daily_statistics_no_rows_witness :
  daily_max matrix_no_patients = Raise (zero_size "maximum") /\
  daily_mean matrix_no_patients = [nan; nan; nan]%float.
Proof.
  destruct (daily_statistics_no_rows matrix_no_patients eq_refl)
    as (Hmax & _ & Hmean & _).
  split; assumption.
Defined.

Lemma daily_max_column_witness :
  exists mx v,
    daily_max matrix_1234 = Ok mx /\ mx !! 0 = Some v /\
    v ∈ column 0 matrix_1234.
Proof.
  destruct (daily_max_column matrix_1234 0 matrix_1234_rectangular
              ltac:(cbn; lia) ltac:(discriminate))
    as (mx & v & Hrun & Hv & _ & Hnum).
  exists mx, v. split; [exact Hrun|]. split; [exact Hv|].
  apply Hnum. repeat constructor.
Defined.

Lemma daily_min_column_witness :
  exists mn v,
    daily_min matrix_1234 = Ok mn /\ mn !! 1 = Some v /\
    v ∈ column 1 matrix_1234.
Proof.
  destruct (daily_min_column matrix_1234 1 matrix_1234_rectangular
              ltac:(cbn; lia) ltac:(discriminate))
    as (mn & v & Hrun & Hv & _ & Hnum).
  exists mn, v. split; [exact Hrun|]. split; [exact Hv|].
  apply Hnum. repeat constructor.
Defined.

Lemma daily_min_le_max_witness :
  exists mn mx lo hi,
    daily_min matrix_1234 = Ok mn /\ daily_max matrix_1234 = Ok mx /\
    mn !! 0 = Some lo /\ mx !! 0 = Some hi /\ (lo <=? hi)%float = true.
Proof.
  apply (daily_min_le_max matrix_1234 0 matrix_1234_rectangular).
  - cbn. lia.
  - discriminate.
  - repeat constructor.
Defined.

Lemma daily_mean_std_nan_witness :
  exists m s,
    daily_mean matrix_mixed !! 0 = Some m /\ is_nan m = true /\
    daily_std matrix_mixed !! 0 = Some s /\ is_nan s = true.
Proof.
  apply (daily_mean_std_nan matrix_mixed 0 (proj1 matrix_mixed_valid)).
  - cbn. lia.
  - right. left. reflexivity.
Defined.


Lemma daily_above_threshold_negative_index_witness :
  daily_above_threshold matrix_159_222 (1 - 2) 1%float
  = daily_above_threshold matrix_159_222 1 1%float.
Proof.
  apply (daily_above_threshold_negative_index matrix_159_222 1%Z 1%float).
  cbn. lia.
Defined.

Lemma daily_above_threshold_monotone_witness :
  exists c1 c2,
    daily_above_threshold matrix_159_222 0 3%float = Ok c1 /\
    daily_above_threshold matrix_159_222 0 5%float = Ok c2 /\
    (0 <= c2 <= c1)%Z.
Proof.
  destruct (daily_above_threshold_monotone matrix_159_222 0%Z 3%float 5%float
              [1; 5; 9]%float eq_refl ltac:(discriminate) eq_refl)
    as (c1 & c2 & H1 & H2 & Hle & _).
  exists c1, c2. repeat split; try assumption; lia.
Defined.

Lemma daily_above_threshold_nan_witness :
  daily_above_threshold matrix_159_222 0 nan = Ok 0%Z.
Proof.
  apply (daily_above_threshold_nan matrix_159_222 0%Z nan [1; 5; 9]%float).
  - reflexivity.
  - discriminate.
  - left. reflexivity.
Defined.
